(** * NoMoreJokes bot: a shallow embedding of [bot.py] and its properties

    The bot takes a topic from a chat user, asks a text-generation
    service for an article in JSON, renders it through an HTML template
    and stores it under [blog/<slug>.html].

    Python values are modelled as follows.
    - A [str] is the list of its Unicode code points ([N]).
    - The value returned by [json.loads] is a [pyval]; a JSON object is a
      finite map from keys to values.
    - The file system is a finite map from paths to nodes; code that
      touches it is written in a state-and-exception monad.
    - What the repository does not contain (the Unicode lower-casing
      table behind [str.lower], the JSON reader, the generation service,
      the wall clock) is a [Variable] of the section that uses it. *)

From Stdlib Require Import NArith List String Ascii Bool Lia.
From stdpp Require Import base list gmap.

Set Warnings "-register-all".
Set Default Proof Using "Type".
Local Open Scope N_scope.

(* ================================================================== *)
(** * Python strings *)
(* ================================================================== *)

Module Py.

(** A Python [str]: a sequence of code points. *)
Abbreviation str := (list N).

(** ** Literals

    Source literals are UTF-8 text; [lit] decodes them into code points,
    so that [lit "…"] is the one-element string [[0x2026]]. *)

Definition bytes_of (s : string) : list N :=
  List.map N_of_ascii (list_ascii_of_string s).

Fixpoint utf8_decode (fuel : nat) (bs : list N) : str :=
  match fuel with
  | O => []
  | S fuel =>
      match bs with
      | [] => []
      | b0 :: r0 =>
          if b0 <? 0x80 then b0 :: utf8_decode fuel r0
          else if b0 <? 0xE0 then
            match r0 with
            | b1 :: r1 =>
                ((b0 - 0xC0) * 64 + (b1 - 0x80)) :: utf8_decode fuel r1
            | _ => []
            end
          else if b0 <? 0xF0 then
            match r0 with
            | b1 :: b2 :: r2 =>
                ((b0 - 0xE0) * 4096 + (b1 - 0x80) * 64 + (b2 - 0x80))
                  :: utf8_decode fuel r2
            | _ => []
            end
          else
            match r0 with
            | b1 :: b2 :: b3 :: r3 =>
                ((b0 - 0xF0) * 262144 + (b1 - 0x80) * 4096
                 + (b2 - 0x80) * 64 + (b3 - 0x80))
                  :: utf8_decode fuel r3
            | _ => []
            end
      end
  end.

Definition lit (s : string) : str :=
  let bs := bytes_of s in utf8_decode (List.length bs) bs.

(** ** Character classes *)

Definition is_hyphen (c : N) : bool := c =? 45.
Definition is_lower_az (c : N) : bool := (97 <=? c) && (c <=? 122).
Definition is_upper_AZ (c : N) : bool := (65 <=? c) && (c <=? 90).
Definition is_digit (c : N) : bool := (48 <=? c) && (c <=? 57).
Definition is_ascii (c : N) : bool := c <? 128.

(** The class [[a-z0-9]]. *)
Definition is_alnum (c : N) : bool := is_lower_az c || is_digit c.

(** The class [[a-z0-9-]]. *)
Definition is_slug_char (c : N) : bool := is_alnum c || is_hyphen c.

(** Python's white space ([str.isspace], also the class [\s] of [re] on
    [str] patterns). *)
Definition is_space (c : N) : bool :=
  ((0x09 <=? c) && (c <=? 0x0D)) || ((0x1C <=? c) && (c <=? 0x20))
  || (c =? 0x85) || (c =? 0xA0) || (c =? 0x1680)
  || ((0x2000 <=? c) && (c <=? 0x200A))
  || (c =? 0x2028) || (c =? 0x2029) || (c =? 0x202F) || (c =? 0x205F)
  || (c =? 0x3000).

(** [str.lower] restricted to ASCII: the only part of it that is fixed
    without the Unicode tables. *)
Definition ascii_lower (c : N) : N := if is_upper_AZ c then c + 32 else c.

(** ** [str] methods *)

Fixpoint lstrip (p : N -> bool) (s : str) : str :=
  match s with
  | [] => []
  | c :: t => if p c then lstrip p t else s
  end.

Definition rstrip (p : N -> bool) (s : str) : str :=
  List.rev (lstrip p (List.rev s)).

(** [s.strip(chars)] with [p] the membership test of [chars];
    [s.strip()] is [strip is_space]. *)
Definition strip (p : N -> bool) (s : str) : str := rstrip p (lstrip p s).

(** [s] has no white space (or other character of [p]) at either end. *)
Definition trimmed (p : N -> bool) (s : str) : Prop :=
  lstrip p s = s /\ rstrip p s = s.

(** [s.startswith(pre)]. *)
Fixpoint startswith (pre s : str) : bool :=
  match pre, s with
  | [], _ => true
  | _ :: _, [] => false
  | a :: pre', b :: s' => (a =? b) && startswith pre' s'
  end.

(** [s.replace(old, new)]: every non-overlapping occurrence of [old],
    leftmost first.  [skip] counts the characters of a matched occurrence
    that are still to be passed over.  For an empty [old] Python also
    inserts [new] at the end. *)
Fixpoint replace_from (old new : str) (skip : nat) (s : str) : str :=
  match s with
  | [] => match old with [] => new | _ => [] end
  | c :: t =>
      match skip with
      | S k => replace_from old new k t
      | O =>
          if startswith old s
          then new ++ match old with
                      | [] => c :: replace_from old new 0 t
                      | _ => replace_from old new (List.length old - 1) t
                      end
          else c :: replace_from old new 0 t
      end
  end.

Definition replace (old new s : str) : str := replace_from old new 0 s.

(** [x or y] on strings: the empty string is false. *)
Definition str_or (x y : str) : str :=
  match x with [] => y | _ => x end.

(** [x in s] for strings: [x] occurs in [s] as a contiguous block. *)
Definition contains (x s : str) : Prop := exists pre post, s = pre ++ x ++ post.

(** The same as a test. *)
Fixpoint occurs (x s : str) : bool :=
  startswith x s || match s with [] => false | _ :: t => occurs x t end.

(** [old] and [w] differ at a position both have: whatever follows [w],
    [old] does not start there. *)
Fixpoint mismatch (old w : str) : bool :=
  match old, w with
  | a :: old', b :: w' => negb (a =? b) || mismatch old' w'
  | _, _ => false
  end.

(** No occurrence of [old] starts inside [w], whatever follows [w]. *)
Fixpoint never_starts (old w : str) : bool :=
  match w with
  | [] => true
  | _ :: t => mismatch old w && never_starts old t
  end.

(** ** The [re.sub] calls of the program

    Each pattern of [bot.py] is one of three shapes; each shape gets its
    scanning function. *)

(** [re.sub("[...]", repl, s)] for a one-character class [p]. *)
Definition re_sub_char (p : N -> bool) (repl s : str) : str :=
  flat_map (fun c => if p c then repl else [c]) s.

(** [re.sub("X{n,}", repl, s)] for a one-character class [p] and [1 <= n].
    The quantifier is greedy, so a match attempted at the start of a run
    takes the whole run; a run shorter than [n] matches nowhere and is
    copied.  [run] is the run read so far. *)
Fixpoint re_sub_run_from (p : N -> bool) (n : nat) (repl run s : str) : str :=
  let flush := if (n <=? List.length run)%nat then repl else run in
  match s with
  | [] => flush
  | c :: t =>
      if p c then re_sub_run_from p n repl (run ++ [c]) t
      else flush ++ c :: re_sub_run_from p n repl [] t
  end.

Definition re_sub_run (p : N -> bool) (n : nat) (repl s : str) : str :=
  re_sub_run_from p n repl [] s.

End Py.

(* ================================================================== *)
(** * Regular expressions, for stating the shape of a slug *)
(* ================================================================== *)

Module Regex.
Import Py.

Inductive regex : Type :=
| Chr (p : N -> bool)          (* one character of a class *)
| Cat (r1 r2 : regex)
| Star (r : regex).

(** [r+] *)
Definition Plus (r : regex) : regex := Cat r (Star r).

(** [fullmatch r s]: the whole of [s] matches [r]. *)
Inductive fullmatch : regex -> str -> Prop :=
| MChr p c : p c = true -> fullmatch (Chr p) [c]
| MCat r1 r2 s1 s2 :
    fullmatch r1 s1 -> fullmatch r2 s2 -> fullmatch (Cat r1 r2) (s1 ++ s2)
| MStarNil r : fullmatch (Star r) []
| MStarApp r s1 s2 :
    fullmatch r s1 -> fullmatch (Star r) s2 -> fullmatch (Star r) (s1 ++ s2).

(** [[a-z0-9]] and [(-[a-z0-9]+)*] *)
Definition alnum_re : regex := Chr is_alnum.
Definition tail_re : regex := Star (Cat (Chr is_hyphen) (Plus alnum_re)).

(** [[a-z0-9]+(-[a-z0-9]+)*] *)
Definition slug_re : regex := Cat (Plus alnum_re) tail_re.

End Regex.

(* ================================================================== *)
(** * Values, exceptions and the file system *)
(* ================================================================== *)

Module World.
Import Py.

(** What [json.loads] returns.  A number keeps its literal text: the
    program never computes with one. *)
Inductive pyval : Type :=
| PyNone
| PyBool (b : bool)
| PyNum (literal : str)
| PyStr (s : str)
| PyList (items : list pyval)
| PyDict (d : gmap str pyval).

(** The exceptions the pipeline can raise.  [ValueError missing] is the
    one raised by [generate_article] itself; in Python
    [json.JSONDecodeError] is a subclass of [ValueError], here it is a
    constructor of its own and [is_JSONDecodeError] is the test made by
    [except json.JSONDecodeError]. *)
Inductive exn : Type :=
| JSONDecodeError
| ValueError (missing : gset str)
| AttributeError
| TypeError
| KeyError (key : str)
| FileNotFoundError
| FileExistsError
| IsADirectoryError
| NotADirectoryError
| ServiceError.

Definition is_JSONDecodeError (e : exn) : bool :=
  match e with JSONDecodeError => true | _ => false end.

(** A call that returns or raises. *)
Inductive result (A : Type) : Type :=
| Ok (a : A)
| Raise (e : exn).
Arguments Ok {A} a.
Arguments Raise {A} e.

(** ** Paths and files

    A path is the list of its components; [p / name] appends one. *)
Abbreviation path := (list str).

Inductive node : Type :=
| Dir
| File (content : str).

Abbreviation filesystem := (gmap path node).

(** ** Computations over the file system *)

Definition M (A : Type) : Type := filesystem -> result A * filesystem.

Definition ret {A} (a : A) : M A := fun fs => (Ok a, fs).

Definition raise {A} (e : exn) : M A := fun fs => (Raise e, fs).

Definition bind {A B} (c : M A) (k : A -> M B) : M B :=
  fun fs =>
    match c fs with
    | (Ok a, fs') => k a fs'
    | (Raise e, fs') => (Raise e, fs')
    end.

Definition lift {A} (r : result A) : M A :=
  match r with Ok a => ret a | Raise e => raise e end.

(** With these instances a computation is written [x ← c; k]. *)
#[global] Instance M_ret : MRet M := @ret.
#[global] Instance M_bind : MBind M := fun A B k c => bind c k.

(** [Path.mkdir(parents=True, exist_ok=True)].  The parent of the only
    directory the program makes is the directory that holds [bot.py], so
    it exists; what can go wrong is a regular file in the way. *)
Definition mkdir_p (p : path) : M unit :=
  fun fs =>
    match fs !! p with
    | Some Dir => (Ok tt, fs)
    | Some (File _) => (Raise FileExistsError, fs)
    | None => (Ok tt, <[p := Dir]> fs)
    end.

(** [Path.read_text(encoding="utf-8")]. *)
Definition read_text (p : path) : M str :=
  fun fs =>
    match fs !! p with
    | Some (File content) => (Ok content, fs)
    | Some Dir => (Raise IsADirectoryError, fs)
    | None => (Raise FileNotFoundError, fs)
    end.

(** [Path.write_text(text, encoding="utf-8")]: the file is created or
    truncated; the directory it goes into must exist. *)
Definition write_text (p : path) (text : str) : M unit :=
  fun fs =>
    match fs !! removelast p with
    | Some Dir =>
        match fs !! p with
        | Some Dir => (Raise IsADirectoryError, fs)
        | _ => (Ok tt, <[p := File text]> fs)
        end
    | Some (File _) => (Raise NotADirectoryError, fs)
    | None => (Raise FileNotFoundError, fs)
    end.

(** ** The clock *)

Record datetime : Type := { year : N; month : N; day : N }.

Fixpoint decimal_from (fuel : nat) (n : N) (acc : str) : str :=
  match fuel with
  | O => acc
  | S fuel =>
      let acc := (48 + n mod 10) :: acc in
      if n <? 10 then acc else decimal_from fuel (n / 10) acc
  end.

(** [str(n)] for a natural number. *)
Definition decimal (n : N) : str := decimal_from (S (N.to_nat (N.log2 n))) n [].

Definition month_names : list str := [
  lit "January"; lit "February"; lit "March"; lit "April"; lit "May";
  lit "June"; lit "July"; lit "August"; lit "September"; lit "October";
  lit "November"; lit "December"
].

(** [%B], for a month from 1 to 12. *)
Definition month_name (m : N) : str :=
  List.nth (N.to_nat (m - 1)) month_names [].

(** [now.strftime("%B %d, %Y")], for a year of four digits. *)
Definition strftime_B_d_Y (now : datetime) : str :=
  month_name (month now) ++ lit " "
  ++ (if day now <? 10 then lit "0" else []) ++ decimal (day now)
  ++ lit ", " ++ decimal (year now).

(** ** What the program is linked against

    [json_loads] answers [None] where [json.loads] raises
    [JSONDecodeError].  [generate_content] is the whole exchange with the
    generation service, from the prompt to [response.text].  [py_str] is
    the conversion an f-string applies to a value that is not a [str]. *)
Record runtime : Type := {
  str_lower : str -> str;
  json_loads : str -> option pyval;
  generate_content : str -> result str;
  py_str : pyval -> str;
  BASE_DIR : path;
}.

(** The one fact about [str.lower] the proofs use: on ASCII text it is
    the letter-by-letter map. *)
Definition lower_on_ascii (rt : runtime) : Prop :=
  forall s, forallb is_ascii s = true -> str_lower rt s = List.map ascii_lower s.

End World.

(* ================================================================== *)
(** * The program: [bot.py] *)
(* ================================================================== *)

Module Bot.
Import Py World.

Definition nl : str := [10].
Definition dq : str := [34].

(** [sep.join(parts)] *)
Fixpoint join (sep : str) (parts : list str) : str :=
  match parts with
  | [] => []
  | [p] => p
  | p :: ps => p ++ sep ++ join sep ps
  end.

(** [d[key]] *)
Definition item (d : gmap str pyval) (key : str) : result pyval :=
  match d !! key with
  | Some v => Ok v
  | None => Raise (KeyError key)
  end.

Definition WAITING_FOR_TOPIC_code : N := 1.

Section Program.

Variable rt : runtime.

(** ** Configuration *)

Definition TEMPLATE_PATH : path :=
  BASE_DIR rt ++ [lit "templates"; lit "template.html"].

Definition BLOG_DIR : path := BASE_DIR rt ++ [lit "blog"].

(** ** Gemini helpers *)

Definition _build_prompt (topic : str) : str :=
  join nl [
    lit "You are a skilled human journalist writing for a general audience.";
    lit "Write a compelling, emotionally engaging article about the following topic or headline.";
    [];
    lit "Topic: " ++ topic;
    [];
    lit "Requirements:";
    lit "- Length: 800-1200 words";
    lit "- Style: human storytelling, emotional, engaging; avoid robotic or listicle tone";
    lit "- Structure: an introduction, at least three sections each with an H2 heading and";
    lit "  one or more H3 subheadings where appropriate, and a conclusion";
    lit "- Return a single JSON object with EXACTLY these keys:";
    lit "  " ++ dq ++ lit "title" ++ dq ++ lit ": article title (string)";
    lit "  " ++ dq ++ lit "slug" ++ dq ++ lit ": URL-safe slug, lowercase, hyphens only (string)";
    lit "  " ++ dq ++ lit "meta_description" ++ dq
      ++ lit ": 150-160 characters summary for SEO (string)";
    lit "  " ++ dq ++ lit "keywords" ++ dq
      ++ lit ": comma-separated SEO keywords, 5-8 keywords (string)";
    lit "  " ++ dq ++ lit "html_content" ++ dq
      ++ lit ": the article body as clean HTML using <p>, <h2>, and <h3> tags only";
    lit "    (NO <html>, <head>, <body>, or <article> wrappers) (string)";
    [];
    lit "Return ONLY the JSON object with no markdown fences or extra text."
  ].

Definition fence : str := lit "```".

(** [re.sub(r"^```(?:json)?\s*", "", raw)].  Without [re.MULTILINE] the
    anchor holds at the first character only, so there is at most one
    match; after the fence the group takes [json] if it is there and
    [\s*] takes all the white space that follows. *)
Definition re_sub_leading_fence (raw : str) : str :=
  if startswith fence raw then
    let rest := drop (List.length fence) raw in
    let rest :=
      if startswith (lit "json") rest then drop 4 rest else rest in
    lstrip is_space rest
  else raw.

(** Whether [\s*```$] matches at the start of [s], and if so what of [s]
    lies behind the match: nothing, or the final newline before which
    [$] also holds. *)
Definition trailing_fence_here (s : str) : option str :=
  let rest := lstrip is_space s in
  if bool_decide (rest = fence) then Some []
  else if bool_decide (rest = fence ++ nl) then Some nl
  else None.

(** [re.sub(r"\s*```$", "", raw)]: the text is scanned for the leftmost
    match. *)
Fixpoint re_sub_trailing_fence (raw : str) : str :=
  match trailing_fence_here raw with
  | Some behind => behind
  | None =>
      match raw with
      | [] => []
      | c :: t => c :: re_sub_trailing_fence t
      end
  end.

(** Lines 92 to 96: what is handed to [json.loads]. *)
Definition clean_response (text : str) : str :=
  let raw := strip is_space text in
  let raw := re_sub_leading_fence raw in
  let raw := re_sub_trailing_fence raw in
  raw.

Definition required : gset str :=
  {[ lit "title"; lit "slug"; lit "meta_description"; lit "keywords";
     lit "html_content" ]}.

Definition generate_article (topic : str) : result (gmap str pyval) :=
  match generate_content rt (_build_prompt topic) with
  | Raise e => Raise e
  | Ok text =>
      let raw := clean_response text in
      match json_loads rt raw with
      | None => Raise JSONDecodeError
      | Some (PyDict data) =>
          let missing := required ∖ dom data in
          if bool_decide (missing = ∅) then Ok data
          else Raise (ValueError missing)
      | Some _ => Raise AttributeError      (* no method [keys] *)
      end
  end.

(** ** HTML generation *)

Definition _sanitize_slug (slug : str) : str :=
  let slug := str_lower rt slug in
  let slug := re_sub_char (fun c => negb (is_slug_char c)) (lit "-") slug in
  let slug := re_sub_run is_hyphen 2 (lit "-") slug in
  str_or (strip is_hyphen slug) (lit "article").

(** [_sanitize_slug(v)] for a value of any type: only a [str] has the
    method [lower]. *)
Definition _sanitize_slug_value (v : pyval) : result str :=
  match v with
  | PyStr slug => Ok (_sanitize_slug slug)
  | _ => Raise AttributeError
  end.

(** [template.replace(placeholder, value)]: the argument must be a
    [str]. *)
Definition replace_value (placeholder : str) (value : pyval) (template : str)
  : result str :=
  match value with
  | PyStr v => Ok (replace placeholder v template)
  | _ => Raise TypeError
  end.

(** The loop of lines 131 and 132, over the items of [replacements] in
    the order they were inserted. *)
Fixpoint substitute (replacements : list (str * pyval)) (template : str)
  : result str :=
  match replacements with
  | [] => Ok template
  | (placeholder, value) :: rest =>
      match replace_value placeholder value template with
      | Ok template' => substitute rest template'
      | Raise e => Raise e
      end
  end.

Definition render_html (now : datetime) (data : gmap str pyval) : M str :=
  template ← read_text TEMPLATE_PATH;
  title ← lift (item data (lit "title"));
  slug ← lift (item data (lit "slug"));
  meta_description ← lift (item data (lit "meta_description"));
  keywords ← lift (item data (lit "keywords"));
  html_content ← lift (item data (lit "html_content"));
  let replacements := [
    (lit "{{ title }}", title);
    (lit "{{ slug }}", slug);
    (lit "{{ meta_description }}", meta_description);
    (lit "{{ keywords }}", keywords);
    (lit "{{ content }}", html_content);
    (lit "{{ date }}", PyStr (strftime_B_d_Y now));
    (lit "{{ year }}", PyStr (decimal (year now)))
  ] in
  lift (substitute replacements template).

Definition save_article (now : datetime) (data : gmap str pyval) : M path :=
  _ ← mkdir_p BLOG_DIR;
  raw_slug ← lift (item data (lit "slug"));
  slug ← lift (_sanitize_slug_value raw_slug);
  let output_path := BLOG_DIR ++ [slug ++ lit ".html"] in
  document ← render_html now data;
  _ ← write_text output_path document;
  ret output_path.

(** ** Telegram command handlers *)

(** [ConversationHandler.END], no conversation going on, and the one
    state of a conversation. *)
Inductive conversation : Type :=
| END
| WAITING_FOR_TOPIC.

(** How a handler finishes: it returns the next state, or an exception
    leaves it. *)
Inductive outcome : Type :=
| Return (next : conversation)
| Uncaught (e : exn).

(** What a handler did: the texts passed to [reply_text], in order, and
    how it finished. *)
Record reaction : Type := {
  replies : list str;
  finish : outcome;
}.

Definition start_text : str :=
  lit "👋 Welcome to *NoMoreJokes Bot*!" ++ nl ++ nl
  ++ lit "Use /generate or /publish and then send me a news headline or trending topic "
  ++ lit "to generate an SEO-optimized article." ++ nl ++ nl
  ++ lit "Use /cancel at any time to stop.".

Definition generate_text : str :=
  lit "📰 Send me a *news headline or trending topic* and I'll write a full article for you.".

Definition empty_topic_text : str := lit "Please send a non-empty topic.".

Definition generating_text : str :=
  lit "⏳ Generating your article… this may take a moment.".

Definition parse_error_text : str :=
  lit "❌ Could not parse the AI response. Please try again later.".

Definition failure_text : str :=
  lit "❌ An error occurred while generating the article. Please try again later.".

Definition cancel_text : str :=
  lit "❎ Cancelled. Use /generate or /publish to start again.".

Definition BLOG_URL : str := lit "https://senlodigi.github.io/NoMoreJokes/blog/".

(** A replacement field [{data['key']}] of an f-string. *)
Definition fstring_field (data : gmap str pyval) (key : str) : result str :=
  match item data key with
  | Ok (PyStr s) => Ok s
  | Ok v => Ok (py_str rt v)
  | Raise e => Raise e
  end.

Definition blog_url (slug : str) : str := BLOG_URL ++ slug ++ lit ".html".

Definition saved_to (slug : str) : str := lit "blog/" ++ slug ++ lit ".html".

(** The text of lines 197 to 202. *)
Definition success_text (title meta keywords slug : str) : str :=
  lit "✅ *Article generated!*" ++ nl ++ nl
  ++ lit "📌 *Title:* " ++ title ++ nl
  ++ lit "📝 *Meta:* " ++ meta ++ nl
  ++ lit "🔑 *Keywords:* " ++ keywords ++ nl
  ++ lit "📁 *Saved to:* `" ++ saved_to slug ++ lit "`" ++ nl
  ++ lit "🌐 *URL:* " ++ blog_url slug.

(** Lines 193 to 204, which run outside the [try]. *)
Definition success_reply (data : gmap str pyval) : result str :=
  match item data (lit "slug") with
  | Raise e => Raise e
  | Ok raw_slug =>
      match _sanitize_slug_value raw_slug with
      | Raise e => Raise e
      | Ok slug =>
          match fstring_field data (lit "title"),
                fstring_field data (lit "meta_description"),
                fstring_field data (lit "keywords") with
          | Ok title, Ok meta, Ok keywords =>
              Ok (success_text title meta keywords slug)
          | Raise e, _, _ | _, Raise e, _ | _, _, Raise e => Raise e
          end
      end
  end.

(** The body of the [try] of [topic_received]. *)
Definition try_generate_and_save (now : datetime) (topic : str)
  : M (gmap str pyval * path) :=
  data ← lift (generate_article topic);
  path ← save_article now data;
  ret (data, path).

Definition start_handler : reaction :=
  {| replies := [start_text]; finish := Return END |}.

Definition generate_handler : reaction :=
  {| replies := [generate_text]; finish := Return WAITING_FOR_TOPIC |}.

Definition topic_received (now : datetime) (text : str) (fs : filesystem)
  : reaction * filesystem :=
  let topic := strip is_space text in
  match topic with
  | [] =>
      ({| replies := [empty_topic_text]; finish := Return WAITING_FOR_TOPIC |},
       fs)
  | _ =>
      match try_generate_and_save now topic fs with
      | (Raise e, fs') =>
          if is_JSONDecodeError e then
            ({| replies := [generating_text; parse_error_text];
                finish := Return END |}, fs')
          else
            ({| replies := [generating_text; failure_text];
                finish := Return END |}, fs')
      | (Ok (data, _), fs') =>
          match success_reply data with
          | Ok text =>
              ({| replies := [generating_text; text];
                  finish := Return END |}, fs')
          | Raise e =>
              ({| replies := [generating_text]; finish := Uncaught e |}, fs')
          end
      end
  end.

Definition cancel_handler : reaction :=
  {| replies := [cancel_text]; finish := Return END |}.

(** ** Main entry point: how [main] wires the handlers

    An update is a message, with the name of the bot command it starts
    with if it starts with one, or something else. *)
Inductive update : Type :=
| Message (text : str) (command : option str)
| OtherUpdate.

(** A handler of python-telegram-bot: a test on the update and the
    coroutine to run. *)
Record handler : Type := {
  check_update : update -> bool;
  callback : update -> datetime -> filesystem -> reaction * filesystem;
}.

(** [CommandHandler(name, f)] for an [f] that does not read the update. *)
Definition CommandHandler (name : str) (f : reaction) : handler := {|
  check_update u :=
    match u with
    | Message _ (Some c) => bool_decide (c = name)
    | _ => false
    end;
  callback _ _ fs := (f, fs);
|}.

(** [MessageHandler(filters.TEXT & ~filters.COMMAND, topic_received)];
    the handler reads [update.message.text]. *)
Definition topic_handler : handler := {|
  check_update u :=
    match u with
    | Message _ None => true
    | _ => false
    end;
  callback u now fs :=
    match u with
    | Message text _ => topic_received now text fs
    | OtherUpdate => ({| replies := []; finish := Uncaught AttributeError |}, fs)
    end;
|}.

Record ConversationHandler : Type := {
  entry_points : list handler;
  states : conversation -> list handler;
  fallbacks : list handler;
}.

(** Lines 227 to 238. *)
Definition conv_handler : ConversationHandler := {|
  entry_points := [
    CommandHandler (lit "generate") generate_handler;
    CommandHandler (lit "publish") generate_handler
  ];
  states st :=
    match st with
    | WAITING_FOR_TOPIC => [topic_handler]
    | END => []
    end;
  fallbacks := [CommandHandler (lit "cancel") cancel_handler];
|}.

Definition first_match (hs : list handler) (u : update) : option handler :=
  List.find (fun h => check_update h u) hs.

(** [ConversationHandler.check_update] (with [allow_reentry] left at
    [False]): outside a conversation only the entry points are tried; in
    a conversation the handlers of its state are tried, then the
    fallbacks. *)
Definition conversation_check_update (ch : ConversationHandler)
  (state : conversation) (u : update) : option handler :=
  match state with
  | END => first_match (entry_points ch) u
  | _ =>
      match first_match (states ch state) u with
      | Some h => Some h
      | None => first_match (fallbacks ch) u
      end
  end.

(** [Application.process_update] for the two handlers of lines 240 and
    241, which share a group: the first whose test passes gets the
    update.  A handler that raises leaves the conversation where it
    was. *)
Definition process_update (state : conversation) (u : update)
  (now : datetime) (fs : filesystem) : conversation * list str * filesystem :=
  let start := CommandHandler (lit "start") start_handler in
  if check_update start u then
    let '(r, fs') := callback start u now fs in (state, replies r, fs')
  else
    match conversation_check_update conv_handler state u with
    | None => (state, [], fs)
    | Some h =>
        let '(r, fs') := callback h u now fs in
        (match finish r with Return next => next | Uncaught _ => state end,
         replies r, fs')
    end.

End Program.
End Bot.

(* ================================================================== *)
(** * The sanitizer as the specification words it *)
(* ================================================================== *)

Module SlugSpec.
Import Py World.

(** Step 2: every character outside [[a-z0-9-]] becomes a hyphen. *)
Definition hyphenate (s : str) : str :=
  List.map (fun c => if is_slug_char c then c else 45) s.

Definition head_is_hyphen (s : str) : bool :=
  match s with d :: _ => is_hyphen d | [] => false end.

(** Step 3: of a run of hyphens only the last one stays. *)
Fixpoint collapse_hyphens (s : str) : str :=
  match s with
  | [] => []
  | c :: t =>
      if is_hyphen c && head_is_hyphen t then collapse_hyphens t
      else c :: collapse_hyphens t
  end.

(** Step 4, the front. *)
Fixpoint strip_leading_hyphens (s : str) : str :=
  match s with
  | [] => []
  | c :: t => if is_hyphen c then strip_leading_hyphens t else s
  end.

(** Step 4, the back. *)
Fixpoint strip_trailing_hyphens (s : str) : str :=
  match s with
  | [] => []
  | c :: t =>
      match strip_trailing_hyphens t with
      | [] => if is_hyphen c then [] else [c]
      | t' => c :: t'
      end
  end.

(** Steps 1 to 5 of section 4.3 of the specification. *)
Definition sanitize (rt : runtime) (s : str) : str :=
  let s1 := str_lower rt s in
  let s2 := hyphenate s1 in
  let s3 := collapse_hyphens s2 in
  let s4 := strip_trailing_hyphens (strip_leading_hyphens s3) in
  match s4 with
  | [] => lit "article"
  | _ => s4
  end.

(** The shape of a sanitized slug, as a test: characters of
    [[a-z0-9-]] only, no hyphen first or last, no two hyphens in a row,
    not empty. *)
Fixpoint slug_tail_ok (prev_hyphen : bool) (s : str) : bool :=
  match s with
  | [] => negb prev_hyphen
  | c :: t =>
      if is_hyphen c then negb prev_hyphen && slug_tail_ok true t
      else is_alnum c && slug_tail_ok false t
  end.

Definition slug_ok (s : str) : bool :=
  match s with
  | [] => false
  | _ => slug_tail_ok true s
  end.

End SlugSpec.

(* ================================================================== *)
(** * Templates *)
(* ================================================================== *)

Module Template.
Import Py World.

(** The seven placeholders, in the order [render_html] replaces them. *)
Inductive field : Type :=
| Title | Slug | MetaDescription | Keywords | Content | Date | Year.

Definition all_fields : list field :=
  [Title; Slug; MetaDescription; Keywords; Content; Date; Year].

Definition placeholder (f : field) : str :=
  match f with
  | Title => lit "{{ title }}"
  | Slug => lit "{{ slug }}"
  | MetaDescription => lit "{{ meta_description }}"
  | Keywords => lit "{{ keywords }}"
  | Content => lit "{{ content }}"
  | Date => lit "{{ date }}"
  | Year => lit "{{ year }}"
  end.

Definition field_eqb (f g : field) : bool :=
  match f, g with
  | Title, Title | Slug, Slug | MetaDescription, MetaDescription
  | Keywords, Keywords | Content, Content | Date, Date | Year, Year => true
  | _, _ => false
  end.

(** A template document cut into plain text and placeholders. *)
Inductive segment : Type :=
| Text (s : str)
| Hole (f : field).

(** The document as it is on disk. *)
Definition template_text (segs : list segment) : str :=
  flat_map (fun g => match g with Text s => s | Hole f => placeholder f end) segs.

(** The document with every placeholder filled in. *)
Definition fill (values : field -> str) (segs : list segment) : str :=
  flat_map (fun g => match g with Text s => s | Hole f => values f end) segs.

(** No opening brace in [s]. *)
Definition brace_free (s : str) : bool :=
  forallb (fun c => negb (c =? 123)) s.

Definition plain_text (segs : list segment) : bool :=
  forallb (fun g => match g with Text s => brace_free s | Hole _ => true end) segs.

Definition holes (f : field) (segs : list segment) : nat :=
  List.length
    (List.filter (fun g => match g with Hole g => field_eqb f g | Text _ => false end)
       segs).

(** The template once [value] has been put in for the placeholder of
    [f]. *)
Definition subst_field (f : field) (value : str) (segs : list segment)
  : list segment :=
  List.map (fun g => match g with
                     | Hole h => if field_eqb f h then Text value else Hole h
                     | Text s => Text s
                     end) segs.

(** No placeholder is left in [doc]. *)
Definition no_placeholder_left (doc : str) : Prop :=
  forall f, ~ contains (placeholder f) doc.

(** The values [render_html] puts in, for an article whose five fields
    are strings. *)
Definition values_of (now : datetime) (title slug meta keywords content : str)
  (f : field) : str :=
  match f with
  | Title => title
  | Slug => slug
  | MetaDescription => meta
  | Keywords => keywords
  | Content => content
  | Date => strftime_B_d_Y now
  | Year => decimal (year now)
  end.

(** An article with string fields, as [json.loads] delivers it. *)
Definition article (title slug meta keywords content : str) : gmap str pyval :=
  <[lit "title" := PyStr title]>
  (<[lit "slug" := PyStr slug]>
  (<[lit "meta_description" := PyStr meta]>
  (<[lit "keywords" := PyStr keywords]>
  (<[lit "html_content" := PyStr content]> ∅)))).

(** [data] holds these five strings under the five required keys
    (and maybe more under other keys). *)
Definition has_fields (data : gmap str pyval)
  (title slug meta keywords content : str) : Prop :=
  data !! lit "title" = Some (PyStr title)
  /\ data !! lit "slug" = Some (PyStr slug)
  /\ data !! lit "meta_description" = Some (PyStr meta)
  /\ data !! lit "keywords" = Some (PyStr keywords)
  /\ data !! lit "html_content" = Some (PyStr content).

(** The seven replacements of [render_html] on the template text [tpl],
    in the order of the loop. *)
Definition rendered (now : datetime) (tpl title slug meta keywords content : str)
  : str :=
  replace (placeholder Year) (decimal (year now))
  (replace (placeholder Date) (strftime_B_d_Y now)
  (replace (placeholder Content) content
  (replace (placeholder Keywords) keywords
  (replace (placeholder MetaDescription) meta
  (replace (placeholder Slug) slug
  (replace (placeholder Title) title tpl)))))).

End Template.

(* ================================================================== *)
(** * A concrete runtime, to run the program on examples *)
(* ================================================================== *)

Module Sample.
Import Py World Bot Template.

(** ** A reader for a fragment of JSON

    Objects, arrays, strings with the one-letter escapes, [true],
    [false], [null] and unsigned integers; anything else is refused.  On
    the texts it accepts it answers as [json.loads] does. *)

Definition is_json_space (c : N) : bool :=
  (c =? 32) || (c =? 9) || (c =? 10) || (c =? 13).

Definition unescape (c : N) : option N :=
  match c with
  | 34 => Some 34 | 92 => Some 92 | 47 => Some 47
  | 98 => Some 8 | 102 => Some 12 | 110 => Some 10
  | 114 => Some 13 | 116 => Some 9
  | _ => None
  end.

(** After the opening quote: the text of the string and what follows the
    closing quote. *)
Fixpoint read_string (s acc : str) : option (str * str) :=
  match s with
  | [] => None
  | 34 :: r => Some (List.rev acc, r)
  | 92 :: r =>
      match r with
      | e :: r' =>
          match unescape e with
          | Some c => read_string r' (c :: acc)
          | None => None
          end
      | [] => None
      end
  | c :: r => if c <? 32 then None else read_string r (c :: acc)
  end.

Fixpoint read_digits (s acc : str) : str * str :=
  match s with
  | c :: r => if is_digit c then read_digits r (c :: acc) else (List.rev acc, s)
  | [] => (List.rev acc, [])
  end.

(** Elements of an array after the first, up to the closing bracket. *)
Fixpoint read_elements (value : str -> option (pyval * str)) (n : nat)
  (s : str) (acc : list pyval) : option (list pyval * str) :=
  match n with
  | O => None
  | S n =>
      match lstrip is_json_space s with
      | 93 :: r => Some (List.rev acc, r)
      | 44 :: r =>
          match value r with
          | Some (v, r') => read_elements value n r' (v :: acc)
          | None => None
          end
      | _ => None
      end
  end.

Definition read_member (value : str -> option (pyval * str)) (s : str)
  : option (str * pyval * str) :=
  match lstrip is_json_space s with
  | 34 :: r =>
      match read_string r [] with
      | Some (k, r') =>
          match lstrip is_json_space r' with
          | 58 :: r'' =>
              match value r'' with
              | Some (v, rest) => Some (k, v, rest)
              | None => None
              end
          | _ => None
          end
      | None => None
      end
  | _ => None
  end.

(** Members of an object after the first, up to the closing brace; a
    repeated key keeps its last value. *)
Fixpoint read_members (value : str -> option (pyval * str)) (n : nat)
  (s : str) (acc : gmap str pyval) : option (gmap str pyval * str) :=
  match n with
  | O => None
  | S n =>
      match lstrip is_json_space s with
      | 125 :: r => Some (acc, r)
      | 44 :: r =>
          match read_member value r with
          | Some (k, v, r') => read_members value n r' (<[k := v]> acc)
          | None => None
          end
      | _ => None
      end
  end.

Fixpoint read_value (fuel : nat) (s : str) : option (pyval * str) :=
  match fuel with
  | O => None
  | S fuel =>
      let s := lstrip is_json_space s in
      match s with
      | 34 :: r =>
          match read_string r [] with
          | Some (x, r') => Some (PyStr x, r')
          | None => None
          end
      | 91 :: r =>
          match lstrip is_json_space r with
          | 93 :: r' => Some (PyList [], r')
          | _ =>
              match read_value fuel r with
              | Some (v, r') =>
                  match read_elements (read_value fuel) (S (List.length r')) r' [v] with
                  | Some (vs, rest) => Some (PyList vs, rest)
                  | None => None
                  end
              | None => None
              end
          end
      | 123 :: r =>
          match lstrip is_json_space r with
          | 125 :: r' => Some (PyDict ∅, r')
          | _ =>
              match read_member (read_value fuel) r with
              | Some (k, v, r') =>
                  match read_members (read_value fuel) (S (List.length r')) r'
                          {[k := v]} with
                  | Some (d, rest) => Some (PyDict d, rest)
                  | None => None
                  end
              | None => None
              end
          end
      | c :: _ =>
          if startswith (lit "true") s then Some (PyBool true, drop 4 s)
          else if startswith (lit "false") s then Some (PyBool false, drop 5 s)
          else if startswith (lit "null") s then Some (PyNone, drop 4 s)
          else if is_digit c then
            let '(ds, r) := read_digits s [] in
            if startswith (lit "0") ds && (1 <? List.length ds)%nat then None
            else Some (PyNum ds, r)
          else None
      | [] => None
      end
  end.

Definition json_reader (s : str) : option pyval :=
  match read_value (S (List.length s)) s with
  | Some (v, rest) =>
      match lstrip is_json_space rest with
      | [] => Some v
      | _ => None
      end
  | None => None
  end.

(** ** The runtime: ASCII lower-casing, the reader above, a service that
    answers [response] whatever the prompt. *)
Definition runtime_with (response : result str) : runtime := {|
  str_lower := List.map ascii_lower;
  json_loads := json_reader;
  generate_content := fun _ => response;
  py_str := fun _ => [];
  BASE_DIR := [lit "srv"; lit "bot"];
|}.

(** ** A small template with the seven placeholders *)
Definition page : list segment := [
  Text (lit "<html><head><title>"); Hole Title;
  Text (lit "</title><meta name='description' content='"); Hole MetaDescription;
  Text (lit "'><meta name='keywords' content='"); Hole Keywords;
  Text (lit "'><link rel='canonical' href='/blog/"); Hole Slug;
  Text (lit ".html'></head><body><p>"); Hole Date;
  Text (lit "</p><article>"); Hole Content;
  Text (lit "</article><footer>(c) "); Hole Year;
  Text (lit "</footer></body></html>")
].

(** A disk holding only the template [segs]. *)
Definition disk_with (rt : runtime) (segs : list segment) : filesystem :=
  {[ TEMPLATE_PATH rt := File (template_text segs) ]}.

Definition today : datetime := {| year := 2026; month := 11; day := 3 |}.

(** The answer of the service in the example of section 8 of the
    specification, between fences and bare. *)
Definition example_json : str :=
  lit "{" ++ dq ++ lit "title" ++ dq ++ lit ":" ++ dq ++ lit "T" ++ dq
  ++ lit "," ++ dq ++ lit "slug" ++ dq ++ lit ":" ++ dq ++ lit "s" ++ dq
  ++ lit "," ++ dq ++ lit "meta_description" ++ dq ++ lit ":" ++ dq ++ lit "M" ++ dq
  ++ lit "," ++ dq ++ lit "keywords" ++ dq ++ lit ":" ++ dq ++ lit "k" ++ dq
  ++ lit "," ++ dq ++ lit "html_content" ++ dq ++ lit ":" ++ dq ++ lit "<p>x</p>" ++ dq
  ++ lit "}".

(** The JSON text of an article whose fields need no escaping. *)
Definition article_json (title slug meta keywords content : str) : str :=
  lit "{" ++ dq ++ lit "title" ++ dq ++ lit ":" ++ dq ++ title ++ dq
  ++ lit "," ++ dq ++ lit "slug" ++ dq ++ lit ":" ++ dq ++ slug ++ dq
  ++ lit "," ++ dq ++ lit "meta_description" ++ dq ++ lit ":" ++ dq ++ meta ++ dq
  ++ lit "," ++ dq ++ lit "keywords" ++ dq ++ lit ":" ++ dq ++ keywords ++ dq
  ++ lit "," ++ dq ++ lit "html_content" ++ dq ++ lit ":" ++ dq ++ content ++ dq
  ++ lit "}".

(** An object with the title only. *)
Definition title_only_json : str :=
  lit "{" ++ dq ++ lit "title" ++ dq ++ lit ":" ++ dq ++ lit "T" ++ dq ++ lit "}".

Definition example_response : str :=
  lit "```json" ++ nl ++ example_json ++ nl ++ lit "```".

Definition example_article : gmap str pyval :=
  article (lit "T") (lit "s") (lit "M") (lit "k") (lit "<p>x</p>").

End Sample.

(* ================================================================== *)
(** * Properties of the slug sanitizer *)
(* ================================================================== *)

Module SlugProofs.
Import Py World Bot SlugSpec Regex.

Lemma is_hyphen_eq c : is_hyphen c = true <-> c = 45.
Proof. unfold is_hyphen. apply N.eqb_eq. Qed.

Lemma alnum_not_hyphen c : is_alnum c = true -> is_hyphen c = false.
Proof.
  unfold is_alnum, is_lower_az, is_digit, is_hyphen. intros H.
  apply N.eqb_neq. intros ->. vm_compute in H. discriminate.
Qed.

Lemma slug_char_cases c :
  is_slug_char c = true -> is_hyphen c = false -> is_alnum c = true.
Proof.
  unfold is_slug_char. intros H Hh. rewrite Hh, orb_false_r in H. exact H.
Qed.

Lemma slug_char_ascii_lower c : is_slug_char c = true -> ascii_lower c = c.
Proof.
  unfold is_slug_char, is_alnum, is_lower_az, is_digit, is_hyphen, ascii_lower,
    is_upper_AZ.
  intros H. destruct ((65 <=? c) && (c <=? 90)) eqn:E; [|reflexivity].
  exfalso. apply andb_true_iff in E as [E1 E2].
  apply N.leb_le in E1, E2.
  repeat (apply orb_true_iff in H as [H|H]).
  - apply andb_true_iff in H as [H1 H2]. apply N.leb_le in H1. lia.
  - apply andb_true_iff in H as [H1 H2]. apply N.leb_le in H2. lia.
  - apply N.eqb_eq in H. lia.
Qed.

Lemma slug_char_is_ascii c : is_slug_char c = true -> is_ascii c = true.
Proof.
  unfold is_slug_char, is_alnum, is_lower_az, is_digit, is_hyphen, is_ascii.
  intros H. apply N.ltb_lt.
  repeat (apply orb_true_iff in H as [H|H]).
  - apply andb_true_iff in H as [H1 H2]. apply N.leb_le in H2. lia.
  - apply andb_true_iff in H as [H1 H2]. apply N.leb_le in H2. lia.
  - apply N.eqb_eq in H. lia.
Qed.

(** ** The code and the specification compute the same function *)

Lemma re_sub_char_hyphenate s :
  re_sub_char (fun c => negb (is_slug_char c)) (lit "-") s = hyphenate s.
Proof.
  change (lit "-") with [45]. unfold re_sub_char, hyphenate.
  induction s as [|c t IH]; simpl; [reflexivity|].
  rewrite IH. destruct (is_slug_char c); reflexivity.
Qed.

Lemma collapse_run k c t :
  is_hyphen c = false ->
  collapse_hyphens (repeat 45 (S k) ++ c :: t) = 45 :: c :: collapse_hyphens t.
Proof.
  intros Hc. induction k as [|k IH].
  - simpl. rewrite Hc. reflexivity.
  - change (repeat 45 (S (S k)) ++ c :: t)
      with (45 :: 45 :: (repeat 45 k ++ c :: t)).
    change (45 :: repeat 45 k ++ c :: t) with (repeat 45 (S k) ++ c :: t) in *.
    cbn [collapse_hyphens]. 
    change (is_hyphen 45) with true. cbn [andb]. exact IH.
Qed.

Lemma collapse_run_end k : collapse_hyphens (repeat 45 (S k)) = [45].
Proof.
  induction k as [|k IH]; [reflexivity|].
  change (repeat 45 (S (S k))) with (45 :: 45 :: repeat 45 k).
  cbn [collapse_hyphens]. change (is_hyphen 45) with true. cbn [andb]. exact IH.
Qed.

Lemma repeat_snoc k : repeat 45 k ++ [45] = repeat 45 (S k).
Proof. induction k as [|k IH]; simpl; [reflexivity|]. f_equal. exact IH. Qed.

Lemma re_sub_run_collapse_from k s :
  re_sub_run_from is_hyphen 2 [45] (repeat 45 k) s
  = collapse_hyphens (repeat 45 k ++ s).
Proof.
  revert k. induction s as [|c t IH]; intros k.
  - rewrite app_nil_r. cbn [re_sub_run_from]. rewrite repeat_length.
    destruct k as [|[|k]]; [reflexivity|reflexivity|].
    rewrite collapse_run_end. reflexivity.
  - cbn [re_sub_run_from]. destruct (is_hyphen c) eqn:Hc.
    + apply is_hyphen_eq in Hc. subst c. rewrite repeat_snoc, IH.
      rewrite <- repeat_snoc, <- app_assoc. reflexivity.
    + rewrite repeat_length. specialize (IH 0%nat). simpl in IH. rewrite IH.
      destruct k as [|k].
      * simpl. rewrite Hc. reflexivity.
      * rewrite collapse_run by exact Hc.
        destruct k as [|k]; reflexivity.
Qed.

Lemma re_sub_run_collapse s :
  re_sub_run is_hyphen 2 (lit "-") s = collapse_hyphens s.
Proof. apply (re_sub_run_collapse_from 0). Qed.

Lemma lstrip_strip_leading s : lstrip is_hyphen s = strip_leading_hyphens s.
Proof. induction s as [|c t IH]; simpl; [reflexivity|]. rewrite IH. reflexivity. Qed.

Lemma lstrip_app p a b :
  lstrip p (a ++ b) = if forallb p a then lstrip p b else lstrip p a ++ b.
Proof.
  induction a as [|c t IH]; simpl; [reflexivity|].
  destruct (p c); simpl; [exact IH|reflexivity].
Qed.

Lemma lstrip_nil_iff p s : lstrip p s = [] <-> forallb p s = true.
Proof.
  induction s as [|c t IH]; simpl; [tauto|].
  destruct (p c); simpl; [exact IH|]. split; discriminate.
Qed.

Lemma rstrip_cons p c t :
  rstrip p (c :: t)
  = match rstrip p t with
    | [] => if p c then [] else [c]
    | t' => c :: t'
    end.
Proof.
  unfold rstrip. simpl. rewrite lstrip_app.
  destruct (forallb p (List.rev t)) eqn:E.
  - apply lstrip_nil_iff in E. rewrite E. simpl. destruct (p c); reflexivity.
  - rewrite rev_app_distr. simpl.
    destruct (List.rev (lstrip p (List.rev t))) eqn:R; [|reflexivity].
    exfalso. apply (f_equal (@List.rev N)) in R. rewrite rev_involutive in R.
    simpl in R. apply lstrip_nil_iff in R. congruence.
Qed.

Lemma rstrip_strip_trailing s : rstrip is_hyphen s = strip_trailing_hyphens s.
Proof.
  induction s as [|c t IH]; [reflexivity|].
  rewrite rstrip_cons, IH. reflexivity.
Qed.

Lemma sanitize_refines rt s : _sanitize_slug rt s = sanitize rt s.
Proof.
  unfold _sanitize_slug, sanitize, strip, str_or.
  rewrite re_sub_char_hyphenate, re_sub_run_collapse, lstrip_strip_leading,
    rstrip_strip_trailing.
  reflexivity.
Qed.

(** ** The shape of the result *)

Lemma hyphenate_slug_chars s : forallb is_slug_char (hyphenate s) = true.
Proof.
  induction s as [|c t IH]; simpl; [reflexivity|].
  rewrite IH, andb_true_r. destruct (is_slug_char c) eqn:E; [exact E|reflexivity].
Qed.

Lemma strip_leading_slug_chars s :
  forallb is_slug_char s = true ->
  forallb is_slug_char (strip_leading_hyphens s) = true.
Proof.
  induction s as [|c t IH]; simpl; [reflexivity|]. intros H.
  destruct (is_hyphen c); [|exact H].
  apply andb_true_iff in H as [_ H]. auto.
Qed.

Lemma strip_leading_collapse s :
  strip_leading_hyphens (collapse_hyphens s)
  = collapse_hyphens (strip_leading_hyphens s).
Proof.
  induction s as [|c t IH]; [reflexivity|].
  cbn [collapse_hyphens strip_leading_hyphens].
  destruct (is_hyphen c) eqn:Hc; cbn [andb].
  - destruct (head_is_hyphen t);
      [exact IH|]. cbn [strip_leading_hyphens]. rewrite Hc. exact IH.
  - cbn [strip_leading_hyphens collapse_hyphens]. rewrite Hc. reflexivity.
Qed.

Lemma strip_leading_head s : head_is_hyphen (strip_leading_hyphens s) = false.
Proof.
  induction s as [|c t IH]; simpl; [reflexivity|].
  destruct (is_hyphen c) eqn:Hc; [exact IH|]. simpl. exact Hc.
Qed.

Lemma slug_tail_ok_true_cons s : slug_tail_ok true s = true -> s <> [].
Proof. destruct s; [discriminate|congruence]. Qed.

(** After collapsing and stripping at the back, what is left is empty or
    has the slug shape; [b] tells whether a hyphen came just before. *)
Lemma collapse_strip_shape s b :
  forallb is_slug_char s = true ->
  (b = true -> head_is_hyphen s = false) ->
  let u := strip_trailing_hyphens (collapse_hyphens s) in
  u = [] \/ slug_tail_ok b u = true.
Proof.
  revert b. induction s as [|c t IH]; intros b Hs Hb; [left; reflexivity|].
  simpl in Hs. apply andb_true_iff in Hs as [Hc Hs].
  cbn [collapse_hyphens].
  destruct (is_hyphen c) eqn:Hh; cbn [andb].
  - assert (b = false) as ->.
    { destruct b; [|reflexivity]. specialize (Hb eq_refl). simpl in Hb. congruence. }
    destruct (head_is_hyphen t) eqn:Ht.
    + apply (IH false); [exact Hs|discriminate].
    + cbn [strip_trailing_hyphens].
      destruct (IH true Hs (fun _ => eq_refl)) as [E|E].
      * left. cbv zeta in E. rewrite E, Hh. reflexivity.
      * right. cbv zeta in E.
        destruct (strip_trailing_hyphens (collapse_hyphens t)) as [|d u] eqn:U;
          [discriminate|].
        cbn [slug_tail_ok]. rewrite Hh. exact E.
  - right. cbn [strip_trailing_hyphens].
    assert (slug_tail_ok false (strip_trailing_hyphens (collapse_hyphens t)) = true)
      as E.
    { destruct (IH false Hs) as [E|E]; [discriminate| |exact E].
      cbv zeta in E. rewrite E. reflexivity. }
    destruct (strip_trailing_hyphens (collapse_hyphens t)) as [|d u] eqn:U;
      rewrite ?Hh; cbn [slug_tail_ok]; rewrite Hh, (slug_char_cases c Hc Hh);
      [reflexivity|exact E].
Qed.

Lemma sanitize_ok rt s : slug_ok (sanitize rt s) = true.
Proof.
  unfold sanitize. rewrite strip_leading_collapse.
  pose proof (collapse_strip_shape
                (strip_leading_hyphens (hyphenate (str_lower rt s))) true
                (strip_leading_slug_chars _ (hyphenate_slug_chars _))
                (fun _ => strip_leading_head _)) as H.
  cbv zeta in H. destruct H as [H|H].
  - rewrite H. reflexivity.
  - destruct (strip_trailing_hyphens _) eqn:U; [discriminate|exact H].
Qed.

(** ** From the shape to the regular expression *)

Lemma slug_tail_ok_match s :
  forall b, slug_tail_ok b s = true ->
  exists a r, s = a ++ r
    /\ fullmatch (if b then Plus alnum_re else Star alnum_re) a
    /\ fullmatch tail_re r.
Proof.
  induction s as [|c t IH]; intros b H.
  - destruct b; [discriminate|]. exists [], []. repeat split; constructor.
  - cbn [slug_tail_ok] in H. destruct (is_hyphen c) eqn:Hh.
    + apply andb_true_iff in H as [Hb H]. destruct b; [discriminate|].
      destruct (IH true H) as (a & r & -> & Ha & Hr).
      exists [], (c :: a ++ r). repeat split; [constructor|].
      change (c :: a ++ r) with (([c] ++ a) ++ r).
      apply MStarApp; [|exact Hr]. apply MCat; [|exact Ha].
      apply MChr. exact Hh.
    + apply andb_true_iff in H as [Hc H].
      destruct (IH false H) as (a & r & -> & Ha & Hr).
      exists (c :: a), r. repeat split; [|exact Hr].
      change (c :: a) with ([c] ++ a).
      destruct b; [apply MCat|apply MStarApp]; try exact Ha;
        apply MChr; exact Hc.
Qed.

Lemma slug_ok_match s : slug_ok s = true -> fullmatch slug_re s.
Proof.
  intros H. destruct s as [|c t]; [discriminate|].
  destruct (slug_tail_ok_match _ true H) as (a & r & -> & Ha & Hr).
  apply MCat; assumption.
Qed.

(** ** A slug of the right shape is left alone *)

Lemma slug_tail_ok_chars s b :
  slug_tail_ok b s = true -> forallb is_slug_char s = true.
Proof.
  revert b. induction s as [|c t IH]; intros b H; [reflexivity|].
  cbn [slug_tail_ok] in H. simpl. unfold is_slug_char at 1.
  destruct (is_hyphen c) eqn:Hh.
  - apply andb_true_iff in H as [_ H]. rewrite orb_true_r. simpl. eauto.
  - apply andb_true_iff in H as [Hc H]. rewrite Hc. simpl. eauto.
Qed.

Lemma hyphenate_id s : forallb is_slug_char s = true -> hyphenate s = s.
Proof.
  induction s as [|c t IH]; simpl; [reflexivity|]. intros H.
  apply andb_true_iff in H as [Hc H]. rewrite Hc, IH; auto.
Qed.

Lemma map_ascii_lower_id s :
  forallb is_slug_char s = true -> List.map ascii_lower s = s.
Proof.
  induction s as [|c t IH]; simpl; [reflexivity|]. intros H.
  apply andb_true_iff in H as [Hc H].
  rewrite (slug_char_ascii_lower c Hc), IH; auto.
Qed.

Lemma slug_chars_ascii s :
  forallb is_slug_char s = true -> forallb is_ascii s = true.
Proof.
  induction s as [|c t IH]; simpl; [reflexivity|]. intros H.
  apply andb_true_iff in H as [Hc H].
  rewrite (slug_char_is_ascii c Hc), IH; auto.
Qed.

Lemma slug_tail_ok_head s : slug_tail_ok true s = true -> head_is_hyphen s = false.
Proof.
  destruct s as [|c t]; [reflexivity|]. cbn [slug_tail_ok head_is_hyphen].
  destruct (is_hyphen c); [discriminate|reflexivity].
Qed.

Lemma collapse_id s b : slug_tail_ok b s = true -> collapse_hyphens s = s.
Proof.
  revert b. induction s as [|c t IH]; intros b H; [reflexivity|].
  cbn [slug_tail_ok] in H. cbn [collapse_hyphens]. fold (head_is_hyphen t).
  destruct (is_hyphen c) eqn:Hh; cbn [andb].
  - apply andb_true_iff in H as [_ H].
    rewrite (slug_tail_ok_head t H), (IH true H). reflexivity.
  - apply andb_true_iff in H as [_ H]. rewrite (IH false H). reflexivity.
Qed.

Lemma strip_trailing_id s b :
  slug_tail_ok b s = true -> strip_trailing_hyphens s = s.
Proof.
  revert b. induction s as [|c t IH]; intros b H; [reflexivity|].
  cbn [slug_tail_ok] in H. cbn [strip_trailing_hyphens].
  destruct (is_hyphen c) eqn:Hh.
  - apply andb_true_iff in H as [_ H]. rewrite (IH true H).
    destruct t; [discriminate|reflexivity].
  - apply andb_true_iff in H as [_ H]. rewrite (IH false H).
    destruct t; reflexivity.
Qed.

Lemma strip_leading_id s :
  head_is_hyphen s = false -> strip_leading_hyphens s = s.
Proof. destruct s as [|c t]; simpl; [reflexivity|]. intros ->. reflexivity. Qed.

Lemma sanitize_fixes_slugs rt s :
  lower_on_ascii rt -> slug_ok s = true -> sanitize rt s = s.
Proof.
  intros Hl H. destruct s as [|c t]; [discriminate|]. unfold slug_ok in H.
  pose proof (slug_tail_ok_chars _ _ H) as Hc.
  unfold sanitize.
  rewrite (Hl _ (slug_chars_ascii _ Hc)), (map_ascii_lower_id _ Hc),
    (hyphenate_id _ Hc), (collapse_id _ _ H),
    (strip_leading_id _ (slug_tail_ok_head _ H)), (strip_trailing_id _ _ H).
  reflexivity.
Qed.

(** ** The claims *)

(** C1.  The slug sanitizer is a total function ([_sanitize_slug] is
    defined on every string) and it is idempotent; its result always
    matches [[a-z0-9]+(-[a-z0-9]+)*] or is the string [article] (which
    matches the expression as well). *)
Theorem sanitize_slug_idempotent_shape (rt : runtime) (s : str) :
  lower_on_ascii rt ->
  _sanitize_slug rt (_sanitize_slug rt s) = _sanitize_slug rt s
  /\ (fullmatch slug_re (_sanitize_slug rt s)
      \/ _sanitize_slug rt s = lit "article").
Proof.
  intros Hl. rewrite !sanitize_refines. split.
  - apply sanitize_fixes_slugs; [exact Hl|apply sanitize_ok].
  - left. apply slug_ok_match, sanitize_ok.
Qed.

(** C4.  The sanitizer is the five steps of the specification: lower
    case, every character outside [[a-z0-9-]] to a hyphen, runs of
    hyphens collapsed, hyphens stripped at both ends, [article] for an
    empty result.  So ["Hello, World!!"] gives ["hello-world"] and
    ["---"] gives ["article"]. *)
Theorem sanitize_slug_algorithm (rt : runtime) :
  lower_on_ascii rt ->
  (forall s, _sanitize_slug rt s = sanitize rt s)
  /\ _sanitize_slug rt (lit "Hello, World!!") = lit "hello-world"
  /\ _sanitize_slug rt (lit "---") = lit "article".
Proof.
  intros Hl. split; [apply sanitize_refines|].
  rewrite !sanitize_refines. unfold sanitize.
  rewrite !Hl by reflexivity. split; vm_compute; reflexivity.
Qed.

End SlugProofs.

(* ================================================================== *)
(** * Properties of [str.replace] and of templates *)
(* ================================================================== *)

Module TemplateProofs.
Import Py World Bot Template.

(** ** Occurrences *)

Lemma startswith_spec x s :
  startswith x s = true <-> exists post, s = x ++ post.
Proof.
  revert s. induction x as [|a x IH]; intros s.
  - simpl. split; [intros _; exists s; reflexivity|reflexivity].
  - destruct s as [|b s]; simpl.
    + split; [discriminate|intros [post H]; discriminate].
    + rewrite andb_true_iff, N.eqb_eq, IH. split.
      * intros [-> [post ->]]. exists post. reflexivity.
      * intros [post H]. injection H as -> ->. eauto.
Qed.

Lemma startswith_app x rest : startswith x (x ++ rest) = true.
Proof. apply startswith_spec. eauto. Qed.

Lemma occurs_spec x s : occurs x s = true <-> contains x s.
Proof.
  unfold contains. induction s as [|c t IH]; simpl.
  - rewrite orb_false_r, startswith_spec. split.
    + intros [post H]. exists [], post. exact H.
    + intros (pre & post & H). destruct pre; [eauto|discriminate].
  - rewrite orb_true_iff, startswith_spec, IH. split.
    + intros [[post H]|(pre & post & H)].
      * exists [], post. exact H.
      * exists (c :: pre), post. rewrite H. reflexivity.
    + intros (pre & post & H). destruct pre as [|d pre].
      * left. eauto.
      * right. injection H as -> ->. eauto.
Qed.

Lemma mismatch_startswith old w rest :
  mismatch old w = true -> startswith old (w ++ rest) = false.
Proof.
  revert w. induction old as [|a old IH]; intros w H; [discriminate|].
  destruct w as [|b w]; [discriminate|]. simpl in *.
  destruct (a =? b); simpl in *; [auto|reflexivity].
Qed.

(** ** [replace] over a text cut in pieces *)

Lemma replace_from_skip old new a rest :
  replace_from old new (List.length a) (a ++ rest)
  = replace_from old new 0 rest.
Proof.
  induction a as [|c a IH]; simpl; [|exact IH].
  destruct rest; reflexivity.
Qed.

(** An occurrence at the front is replaced, and the scan goes on behind
    it. *)
Lemma replace_hit old new rest :
  old <> [] -> replace old new (old ++ rest) = new ++ replace old new rest.
Proof.
  intros Hne. unfold replace. destruct old as [|a old]; [congruence|].
  change ((a :: old) ++ rest) with (a :: (old ++ rest)).
  cbn [replace_from].
  change (a :: old ++ rest) with ((a :: old) ++ rest).
  rewrite startswith_app. cbn [List.length]. rewrite Nat.sub_succ, Nat.sub_0_r.
  rewrite replace_from_skip. reflexivity.
Qed.

(** A piece in which no occurrence starts is copied. *)
Lemma replace_miss old new w rest :
  old <> [] -> never_starts old w = true ->
  replace old new (w ++ rest) = w ++ replace old new rest.
Proof.
  intros Hne. unfold replace. induction w as [|c w IH]; intros H; [reflexivity|].
  cbn [never_starts] in H. apply andb_true_iff in H as [Hm Hw].
  change ((c :: w) ++ rest) with (c :: (w ++ rest)).
  cbn [replace_from].
  change (c :: w ++ rest) with ((c :: w) ++ rest).
  rewrite (mismatch_startswith _ _ _ Hm), (IH Hw). reflexivity.
Qed.

Lemma replace_nil old new : old <> [] -> replace old new [] = [].
Proof. destruct old; [congruence|reflexivity]. Qed.

(** ** Placeholders *)

Lemma placeholder_not_nil f : placeholder f <> [].
Proof. destruct f; vm_compute; discriminate. Qed.

Lemma placeholder_head f : exists w, placeholder f = 123 :: w.
Proof. destruct f; vm_compute; eexists; reflexivity. Qed.

Lemma placeholder_apart f g :
  field_eqb f g = false -> never_starts (placeholder f) (placeholder g) = true.
Proof. destruct f, g; intros H; try discriminate; vm_compute; reflexivity. Qed.

Lemma brace_free_never_starts f s :
  brace_free s = true -> never_starts (placeholder f) s = true.
Proof.
  destruct (placeholder_head f) as [w ->].
  induction s as [|c s IH]; intros H; [reflexivity|].
  simpl in H. apply andb_true_iff in H as [Hc Hs].
  cbn [never_starts mismatch]. rewrite (IH Hs), andb_true_r.
  rewrite N.eqb_sym, Hc. reflexivity.
Qed.

Lemma brace_free_app a b :
  brace_free (a ++ b) = brace_free a && brace_free b.
Proof. unfold brace_free. apply forallb_app. Qed.

Lemma brace_free_no_placeholder f doc :
  brace_free doc = true -> ~ contains (placeholder f) doc.
Proof.
  intros H (pre & post & ->). destruct (placeholder_head f) as [w E].
  rewrite E, !brace_free_app in H. simpl in H.
  rewrite andb_false_r in H. discriminate.
Qed.

(** ** One replacement on a template *)

Lemma replace_template f value segs :
  plain_text segs = true ->
  replace (placeholder f) value (template_text segs)
  = template_text (subst_field f value segs).
Proof.
  pose proof (placeholder_not_nil f) as Hne.
  induction segs as [|g segs IH]; intros H.
  - apply replace_nil, Hne.
  - simpl in H. apply andb_true_iff in H as [Hg H]. specialize (IH H).
    destruct g as [s|h]; simpl.
    + rewrite replace_miss, IH; auto using brace_free_never_starts.
    + destruct (field_eqb f h) eqn:E; simpl.
      * assert (f = h) as <- by (destruct f, h; (discriminate || reflexivity)).
        rewrite replace_hit, IH; auto.
      * rewrite replace_miss, IH; auto using placeholder_apart.
Qed.

Lemma subst_field_plain f value segs :
  brace_free value = true -> plain_text segs = true ->
  plain_text (subst_field f value segs) = true.
Proof.
  intros Hv. induction segs as [|g segs IH]; intros H; [reflexivity|].
  simpl in H. apply andb_true_iff in H as [Hg H]. simpl. rewrite (IH H), andb_true_r.
  destruct g as [s|h]; [exact Hg|]. destruct (field_eqb f h); [exact Hv|reflexivity].
Qed.

(** ** The seven replacements in a row *)

Lemma subst_all values segs :
  template_text
    (subst_field Year (values Year)
    (subst_field Date (values Date)
    (subst_field Content (values Content)
    (subst_field Keywords (values Keywords)
    (subst_field MetaDescription (values MetaDescription)
    (subst_field Slug (values Slug)
    (subst_field Title (values Title) segs)))))))
  = fill values segs.
Proof.
  induction segs as [|g segs IH]; [reflexivity|].
  simpl in *. rewrite IH. destruct g as [s|[]]; reflexivity.
Qed.

Lemma fill_brace_free values segs :
  plain_text segs = true -> (forall f, brace_free (values f) = true) ->
  brace_free (fill values segs) = true.
Proof.
  intros H Hv. induction segs as [|g segs IH]; [reflexivity|].
  simpl in H. apply andb_true_iff in H as [Hg H]. simpl.
  rewrite brace_free_app, (IH H), andb_true_r. destruct g; auto.
Qed.

Lemma fill_app values a b : fill values (a ++ b) = fill values a ++ fill values b.
Proof. unfold fill. apply flat_map_app. Qed.

(** Where [f] has no hole, its value does not matter. *)
Lemma fill_ext f values values' segs :
  holes f segs = 0%nat -> (forall g, field_eqb f g = false -> values g = values' g) ->
  fill values segs = fill values' segs.
Proof.
  intros H Hv. induction segs as [|g segs IH]; [reflexivity|].
  unfold holes in *. simpl in *. destruct g as [s|h].
  - rewrite IH; auto.
  - destruct (field_eqb f h) eqn:E; [discriminate|].
    rewrite (Hv h E), IH; auto.
Qed.

(** ** The date *)

Lemma decimal_from_brace_free fuel n acc :
  brace_free acc = true -> brace_free (decimal_from fuel n acc) = true.
Proof.
  revert n acc. induction fuel as [|fuel IH]; intros n acc H; [exact H|].
  cbn [decimal_from].
  assert (brace_free ((48 + n mod 10) :: acc) = true) as H'.
  { simpl. rewrite H, andb_true_r. apply negb_true_iff, N.eqb_neq.
    pose proof (N.mod_lt n 10). lia. }
  destruct (n <? 10); auto.
Qed.

Lemma decimal_brace_free n : brace_free (decimal n) = true.
Proof. apply decimal_from_brace_free. reflexivity. Qed.

Lemma month_name_brace_free m : brace_free (month_name m) = true.
Proof.
  unfold month_name.
  destruct (nth_in_or_default (N.to_nat (m - 1)) month_names []) as [H| ->];
    [|reflexivity].
  assert (forallb brace_free month_names = true) as A by (vm_compute; reflexivity).
  rewrite forallb_forall in A. auto.
Qed.

Lemma strftime_brace_free now : brace_free (strftime_B_d_Y now) = true.
Proof.
  unfold strftime_B_d_Y.
  rewrite !brace_free_app, month_name_brace_free, !decimal_brace_free.
  destruct (day now <? 10); reflexivity.
Qed.

Lemma values_brace_free now title slug meta keywords content :
  forallb brace_free [title; slug; meta; keywords; content] = true ->
  forall f, brace_free (values_of now title slug meta keywords content f) = true.
Proof.
  simpl. rewrite !andb_true_iff. intros (? & ? & ? & ? & ? & _) f.
  destruct f; simpl; auto using strftime_brace_free, decimal_brace_free.
Qed.

End TemplateProofs.

(* ================================================================== *)
(** * Rendering and saving *)
(* ================================================================== *)

Module SaveProofs.
Import Py World Bot Template TemplateProofs.

Lemma article_has_fields title slug meta keywords content :
  has_fields (article title slug meta keywords content)
    title slug meta keywords content.
Proof. repeat split; reflexivity. Qed.

Lemma item_field (data : gmap str pyval) (key : str) (v : pyval) :
  data !! key = Some v -> item data key = Ok v.
Proof. unfold item. intros ->. reflexivity. Qed.

Section Saving.

Variable rt : runtime.

(** ** Paths *)

Lemma blog_file_not_blog_dir name : BLOG_DIR rt ++ [name] <> BLOG_DIR rt.
Proof.
  intros H. apply (f_equal (@List.length str)) in H.
  rewrite length_app in H. simpl in H. lia.
Qed.

Lemma template_not_blog_dir : TEMPLATE_PATH rt <> BLOG_DIR rt.
Proof.
  unfold TEMPLATE_PATH, BLOG_DIR. intros H.
  apply app_inv_head in H. discriminate.
Qed.

Lemma template_not_blog_file name : TEMPLATE_PATH rt <> BLOG_DIR rt ++ [name].
Proof.
  unfold TEMPLATE_PATH, BLOG_DIR. rewrite <- app_assoc. intros H.
  apply app_inv_head in H. injection H as H _. vm_compute in H. discriminate.
Qed.

Lemma blog_file_inj a b : BLOG_DIR rt ++ [a] = BLOG_DIR rt ++ [b] -> a = b.
Proof. intros H. apply app_inv_head in H. congruence. Qed.

Lemma html_name_inj (a b : str) : a ++ lit ".html" = b ++ lit ".html" -> a = b.
Proof. apply app_inv_tail. Qed.

(** ** The three file operations *)

Lemma mkdir_p_ok (p : path) (fs : filesystem) :
  (forall c, fs !! p <> Some (File c)) ->
  mkdir_p p fs = (Ok tt, <[p := Dir]> fs).
Proof.
  intros H. unfold mkdir_p. destruct (fs !! p) as [[|c]|] eqn:E.
  - rewrite insert_id by exact E. reflexivity.
  - destruct (H c). reflexivity.
  - reflexivity.
Qed.

Lemma write_text_ok (p : path) (name text : str) (fs : filesystem) :
  fs !! p = Some Dir -> fs !! (p ++ [name]) <> Some Dir ->
  write_text (p ++ [name]) text fs
  = (Ok tt, <[p ++ [name] := File text]> fs).
Proof.
  intros Hd Hf. unfold write_text. rewrite removelast_last, Hd.
  destruct (fs !! (p ++ [name])) as [[|c]|]; congruence.
Qed.

(** ** [render_html] *)

Lemma render_html_rendered (now : datetime) (data : gmap str pyval)
  (title slug meta keywords content tpl : str) (fs : filesystem) :
  has_fields data title slug meta keywords content ->
  fs !! TEMPLATE_PATH rt = Some (File tpl) ->
  render_html rt now data fs
  = (Ok (rendered now tpl title slug meta keywords content), fs).
Proof.
  intros (Ht & Hs & Hm & Hk & Hc) Hf.
  unfold render_html, mbind, M_bind, bind, read_text. rewrite Hf.
  rewrite (item_field _ _ _ Ht), (item_field _ _ _ Hs), (item_field _ _ _ Hm),
    (item_field _ _ _ Hk), (item_field _ _ _ Hc).
  cbn [lift ret substitute replace_value]. unfold rendered.
  cbn [placeholder]. reflexivity.
Qed.

(** On a template of plain text and placeholders, with values free of
    braces, the seven replacements fill the seven kinds of holes. *)
Lemma rendered_fill now segs title slug meta keywords content :
  plain_text segs = true ->
  forallb brace_free [title; slug; meta; keywords; content] = true ->
  rendered now (template_text segs) title slug meta keywords content
  = fill (values_of now title slug meta keywords content) segs.
Proof.
  intros Hp Hv.
  pose proof (values_brace_free now _ _ _ _ _ Hv) as Hb.
  set (v := values_of now title slug meta keywords content) in *.
  rewrite <- (subst_all v segs). unfold rendered.
  change title with (v Title). change slug with (v Slug).
  change meta with (v MetaDescription). change keywords with (v Keywords).
  change content with (v Content).
  change (strftime_B_d_Y now) with (v Date).
  change (decimal (year now)) with (v Year).
  repeat (rewrite replace_template; [|repeat apply subst_field_plain; auto]).
  reflexivity.
Qed.

(** ** [save_article] *)

Lemma save_article_ok (now : datetime) (data : gmap str pyval)
  (title slug meta keywords content tpl : str) (fs : filesystem) :
  has_fields data title slug meta keywords content ->
  fs !! TEMPLATE_PATH rt = Some (File tpl) ->
  (forall c, fs !! BLOG_DIR rt <> Some (File c)) ->
  fs !! (BLOG_DIR rt ++ [_sanitize_slug rt slug ++ lit ".html"]) <> Some Dir ->
  save_article rt now data fs
  = (Ok (BLOG_DIR rt ++ [_sanitize_slug rt slug ++ lit ".html"]),
     <[BLOG_DIR rt ++ [_sanitize_slug rt slug ++ lit ".html"]
         := File (rendered now tpl title slug meta keywords content)]>
       (<[BLOG_DIR rt := Dir]> fs)).
Proof.
  intros Hd Ht Hb Ho. pose proof Hd as (_ & Hs & _).
  unfold save_article, mbind, M_bind, bind.
  rewrite (mkdir_p_ok _ _ Hb), (item_field _ _ _ Hs). cbn [lift ret _sanitize_slug_value].
  rewrite (render_html_rendered now data _ _ _ _ _ tpl _ Hd).
  2:{ rewrite lookup_insert_ne by (apply not_eq_sym, template_not_blog_dir).
      exact Ht. }
  rewrite write_text_ok.
  - reflexivity.
  - apply lookup_insert_eq.
  - rewrite lookup_insert_ne by (apply not_eq_sym, blog_file_not_blog_dir).
    exact Ho.
Qed.

(** What [save_article_ok] asks of the disk still holds once an article
    has been saved. *)
Lemma saved_disk_ready (name text tpl : str) (fs : filesystem) :
  fs !! TEMPLATE_PATH rt = Some (File tpl) ->
  let fs' := <[BLOG_DIR rt ++ [name] := File text]> (<[BLOG_DIR rt := Dir]> fs) in
  fs' !! TEMPLATE_PATH rt = Some (File tpl)
  /\ fs' !! BLOG_DIR rt = Some Dir
  /\ fs' !! (BLOG_DIR rt ++ [name]) = Some (File text)
  /\ (forall other, other <> name ->
        fs' !! (BLOG_DIR rt ++ [other]) = fs !! (BLOG_DIR rt ++ [other])).
Proof.
  intros Ht fs'. unfold fs'. repeat split.
  - rewrite !lookup_insert_ne;
      auto using not_eq_sym, template_not_blog_dir, template_not_blog_file.
  - rewrite lookup_insert_ne by apply blog_file_not_blog_dir.
    apply lookup_insert_eq.
  - apply lookup_insert_eq.
  - intros other Hne. rewrite !lookup_insert_ne; auto.
    + apply not_eq_sym, blog_file_not_blog_dir.
    + intros H. apply blog_file_inj in H. congruence.
Qed.

(** ** The claims *)

(** C5 (amended).  [render_html] replaces the seven placeholders one
    after the other, each by plain text replacement over the whole
    document and with no escaping.  On a template made of brace-free
    text and placeholders, and for field values without an opening
    brace, the result is the template with every placeholder filled by
    its value as it is, and no placeholder is left.  With title [Hi] and
    a template that has one title placeholder, [Hi] stands where the
    placeholder stood and the rest does not depend on the title. *)
Theorem render_html_fills (now : datetime) (data : gmap str pyval)
  (title slug meta keywords content : str) (segs : list segment)
  (fs : filesystem) :
  has_fields data title slug meta keywords content ->
  fs !! TEMPLATE_PATH rt = Some (File (template_text segs)) ->
  plain_text segs = true ->
  forallb brace_free [title; slug; meta; keywords; content] = true ->
  let values := values_of now title slug meta keywords content in
  render_html rt now data fs = (Ok (fill values segs), fs)
  /\ no_placeholder_left (fill values segs)
  /\ (forall pre post,
        title = lit "Hi" -> segs = pre ++ Hole Title :: post ->
        holes Title pre = 0%nat -> holes Title post = 0%nat ->
        let others := values_of now [] slug meta keywords content in
        fill values segs = fill others pre ++ lit "Hi" ++ fill others post).
Proof.
  intros Hd Ht Hp Hv values. repeat split.
  - rewrite (render_html_rendered now data _ _ _ _ _ _ _ Hd Ht).
    rewrite rendered_fill by assumption. reflexivity.
  - intros f. apply brace_free_no_placeholder, fill_brace_free; [exact Hp|].
    apply values_brace_free, Hv.
  - intros pre post -> -> Hpre Hpost others.
    change (pre ++ Hole Title :: post) with (pre ++ [Hole Title] ++ post).
    rewrite !fill_app.
    rewrite (fill_ext Title values others pre Hpre),
      (fill_ext Title values others post Hpost);
      try (intros [] E; (discriminate || reflexivity)).
    cbn [fill flat_map app]. rewrite ?app_nil_r. reflexivity.
Qed.

(** C6.  [save_article] makes the blog directory if it is not there and
    accepts it if it is, writes the rendered document to
    [BLOG_DIR/<sanitized slug>.html] whatever file was there before, and
    returns that path.  A second save whose slug sanitizes to the same
    text returns the same path and leaves its own document there; a save
    whose slug sanitizes to another text goes to another path, and both
    files are then on the disk. *)
Theorem save_article_persists (now : datetime) (data : gmap str pyval)
  (title slug meta keywords content tpl : str) (fs : filesystem) :
  has_fields data title slug meta keywords content ->
  fs !! TEMPLATE_PATH rt = Some (File tpl) ->
  (forall c, fs !! BLOG_DIR rt <> Some (File c)) ->
  fs !! (BLOG_DIR rt ++ [_sanitize_slug rt slug ++ lit ".html"]) <> Some Dir ->
  let out := BLOG_DIR rt ++ [_sanitize_slug rt slug ++ lit ".html"] in
  let doc := rendered now tpl title slug meta keywords content in
  exists fs',
    save_article rt now data fs = (Ok out, fs')
    /\ fs' !! BLOG_DIR rt = Some Dir
    /\ fs' !! out = Some (File doc)
    /\ forall now2 data2 title2 slug2 meta2 keywords2 content2,
        has_fields data2 title2 slug2 meta2 keywords2 content2 ->
        let out2 := BLOG_DIR rt ++ [_sanitize_slug rt slug2 ++ lit ".html"] in
        let doc2 := rendered now2 tpl title2 slug2 meta2 keywords2 content2 in
        (_sanitize_slug rt slug2 = _sanitize_slug rt slug ->
         exists fs'',
           save_article rt now2 data2 fs' = (Ok out, fs'')
           /\ fs'' !! out = Some (File doc2))
        /\ (_sanitize_slug rt slug2 <> _sanitize_slug rt slug ->
            out2 <> out
            /\ (fs !! out2 <> Some Dir ->
                exists fs'',
                  save_article rt now2 data2 fs' = (Ok out2, fs'')
                  /\ fs'' !! out = Some (File doc)
                  /\ fs'' !! out2 = Some (File doc2))).
Proof.
  intros Hd Ht Hb Ho. cbv zeta.
  set (name := _sanitize_slug rt slug ++ lit ".html") in *.
  set (doc := rendered now tpl title slug meta keywords content).
  set (fs1 := <[BLOG_DIR rt ++ [name] := File doc]> (<[BLOG_DIR rt := Dir]> fs)).
  destruct (saved_disk_ready name doc tpl fs Ht) as (Ht' & Hb' & Ho' & Hrest).
  fold fs1 in Ht', Hb', Ho', Hrest.
  exists fs1. split.
  { apply (save_article_ok now data _ _ _ _ _ tpl fs Hd Ht Hb Ho). }
  split; [exact Hb'|]. split; [exact Ho'|].
  intros now2 data2 title2 slug2 meta2 keywords2 content2 Hd2.
  set (name2 := _sanitize_slug rt slug2 ++ lit ".html").
  set (doc2 := rendered now2 tpl title2 slug2 meta2 keywords2 content2).
  assert (forall c, fs1 !! BLOG_DIR rt <> Some (File c)) as Hb1.
  { intros c. rewrite Hb'. discriminate. }
  split.
  - intros E.
    assert (name2 = name) as En by (unfold name2, name; rewrite E; reflexivity).
    assert (fs1 !! (BLOG_DIR rt ++ [name2]) <> Some Dir) as Ho1.
    { rewrite En, Ho'. discriminate. }
    pose proof (save_article_ok now2 data2 _ _ _ _ _ tpl fs1 Hd2 Ht' Hb1 Ho1)
      as S.
    fold name2 doc2 in S. rewrite En in S.
    eexists. split; [exact S|]. apply lookup_insert_eq.
  - intros Hne.
    assert (name2 <> name) as Hname.
    { unfold name2, name. intros E. apply html_name_inj in E. contradiction. }
    split.
    + intros E. apply blog_file_inj in E. contradiction.
    + intros Ho2.
      assert (fs1 !! (BLOG_DIR rt ++ [name2]) <> Some Dir) as Ho1.
      { rewrite (Hrest _ Hname). exact Ho2. }
      pose proof (save_article_ok now2 data2 _ _ _ _ _ tpl fs1 Hd2 Ht' Hb1 Ho1)
        as S.
      fold name2 doc2 in S.
      eexists. split; [exact S|]. split.
      * rewrite lookup_insert_ne.
        -- rewrite insert_id; [exact Ho'|exact Hb'].
        -- intros E. apply blog_file_inj in E. contradiction.
      * apply lookup_insert_eq.
Qed.

End Saving.

(** C5, as it is stated, fails on the code: an article with title [Hi]
    whose body holds the text of the title placeholder.  The title is
    replaced first and the body is put in afterwards, so the placeholder
    is still in the document. *)
Lemma render_html_placeholder_survives :
  let rt := Sample.runtime_with (Raise ServiceError) in
  let data := article (lit "Hi") (lit "hi") (lit "m") (lit "k")
                (lit "<p>{{ title }}</p>") in
  let fs := Sample.disk_with rt Sample.page in
  exists doc,
    render_html rt Sample.today data fs = (Ok doc, fs)
    /\ contains (placeholder Title) doc
    /\ ~ no_placeholder_left doc.
Proof.
  intros rt data fs. eexists. split; [|split].
  - apply (render_html_rendered rt Sample.today data _ _ _ _ _
             (template_text Sample.page) fs (article_has_fields _ _ _ _ _)).
    vm_compute. reflexivity.
  - apply occurs_spec. vm_compute. reflexivity.
  - intros H. apply (H Title), occurs_spec. vm_compute. reflexivity.
Qed.

End SaveProofs.

(* ================================================================== *)
(** * Cleaning the answer of the service *)
(* ================================================================== *)

Module FenceProofs.
Import Py World Bot Template TemplateProofs.
Import SlugProofs.

(** ** Stripping *)

Lemma lstrip_all p s : forallb p s = true -> lstrip p s = [].
Proof. apply lstrip_nil_iff. Qed.

Lemma lstrip_idem p s : lstrip p (lstrip p s) = lstrip p s.
Proof.
  induction s as [|c t IH]; [reflexivity|]. simpl.
  destruct (p c) eqn:E; [exact IH|]. simpl. rewrite E. reflexivity.
Qed.

Lemma lstrip_fixed_app p s rest :
  s <> [] -> lstrip p s = s -> lstrip p (s ++ rest) = s ++ rest.
Proof.
  destruct s as [|c t]; [congruence|]. intros _. simpl.
  destruct (p c) eqn:E; [|reflexivity].
  intros H. exfalso.
  assert (List.length (lstrip p t) <= List.length t)%nat as L.
  { clear. induction t as [|d t IH]; simpl; [lia|]. destruct (p d); simpl; lia. }
  rewrite H in L. simpl in L. lia.
Qed.

Lemma rstrip_nil p : rstrip p [] = [].
Proof. reflexivity. Qed.

Lemma rstrip_all p s : forallb p s = true -> rstrip p s = [].
Proof.
  intros H. unfold rstrip. rewrite lstrip_all; [reflexivity|].
  rewrite forallb_forall in *. intros x Hx. apply H, in_rev. exact Hx.
Qed.

Lemma rstrip_fixed_not_all p s :
  s <> [] -> rstrip p s = s -> forallb p s = false.
Proof.
  intros Hne H. destruct (forallb p s) eqn:E; [|reflexivity].
  rewrite (rstrip_all p s E) in H. congruence.
Qed.

Lemma rstrip_fixed_tail p c t : rstrip p (c :: t) = c :: t -> rstrip p t = t.
Proof.
  rewrite rstrip_cons. destruct (rstrip p t) as [|d u] eqn:E.
  - destruct (p c); [discriminate|]. intros H. injection H as <-. reflexivity.
  - intros H. injection H as <-. reflexivity.
Qed.

Lemma rstrip_app_all p s ws :
  forallb p ws = true -> rstrip p (s ++ ws) = rstrip p s.
Proof.
  intros H. unfold rstrip. rewrite rev_app_distr, lstrip_app.
  assert (forallb p (List.rev ws) = true) as ->; [|reflexivity].
  rewrite forallb_forall in *. intros x Hx. apply H, in_rev. exact Hx.
Qed.

(** Padding around a trimmed text is what [strip] removes. *)
Lemma strip_padding p a s b :
  forallb p a = true -> forallb p b = true -> trimmed p s ->
  strip p (a ++ s ++ b) = s.
Proof.
  intros Ha Hb [Hl Hr]. unfold strip. rewrite lstrip_app, Ha.
  destruct s as [|c t].
  - simpl. rewrite (lstrip_all p b Hb). reflexivity.
  - rewrite lstrip_fixed_app by (congruence || exact Hl).
    rewrite rstrip_app_all by exact Hb. exact Hr.
Qed.

(** ** The fence at the end *)

Lemma fence_value : fence = [96; 96; 96].
Proof. reflexivity. Qed.

Lemma fence_trimmed : trimmed is_space fence.
Proof. split; reflexivity. Qed.

Lemma rstrip_fence_end pre : rstrip is_space (pre ++ fence) = pre ++ fence.
Proof.
  unfold rstrip. rewrite rev_app_distr.
  change (List.rev fence) with [96; 96; 96].
  change (lstrip is_space ([96; 96; 96] ++ List.rev pre))
    with ([96; 96; 96] ++ List.rev pre).
  rewrite rev_app_distr, rev_involutive. reflexivity.
Qed.

Lemma re_sub_trailing_fence_eq raw :
  re_sub_trailing_fence raw
  = match trailing_fence_here raw with
    | Some behind => behind
    | None =>
        match raw with
        | [] => []
        | c :: t => c :: re_sub_trailing_fence t
        end
    end.
Proof. destruct raw; reflexivity. Qed.

Lemma trailing_fence_here_lstrip s :
  trailing_fence_here s = trailing_fence_here (lstrip is_space s).
Proof. unfold trailing_fence_here. rewrite lstrip_idem. reflexivity. Qed.

(** Where something that is not white space stands before the final
    fence, the pattern does not match. *)
Lemma no_trailing_fence_before x :
  x <> [] -> lstrip is_space x = x ->
  trailing_fence_here (x ++ fence) = None.
Proof.
  intros Hne Hx. unfold trailing_fence_here.
  rewrite (lstrip_fixed_app _ _ _ Hne Hx).
  rewrite bool_decide_eq_false_2.
  2:{ intros E. apply (f_equal (@List.length N)) in E.
      rewrite length_app in E. destruct x; [congruence|simpl in E; lia]. }
  rewrite bool_decide_eq_false_2; [reflexivity|].
  intros E. apply (f_equal (@List.rev N)) in E.
  rewrite !rev_app_distr in E. discriminate.
Qed.

Lemma trailing_fence_after_space ws :
  forallb is_space ws = true -> trailing_fence_here (ws ++ fence) = Some [].
Proof.
  intros H. unfold trailing_fence_here. rewrite lstrip_app, H. reflexivity.
Qed.

Lemma re_sub_trailing_fence_body body ws :
  rstrip is_space body = body -> forallb is_space ws = true ->
  re_sub_trailing_fence (body ++ ws ++ fence) = body.
Proof.
  intros Hb Hws. induction body as [|c t IH].
  - simpl. rewrite re_sub_trailing_fence_eq, trailing_fence_after_space; auto.
  - rewrite re_sub_trailing_fence_eq.
    rewrite trailing_fence_here_lstrip, lstrip_app.
    rewrite (rstrip_fixed_not_all is_space (c :: t)) by (congruence || exact Hb).
    rewrite app_assoc, no_trailing_fence_before.
    + simpl. rewrite IH; [reflexivity|]. apply (rstrip_fixed_tail _ _ _ Hb).
    + intros E. apply app_eq_nil in E as [E _].
      apply lstrip_nil_iff in E.
      rewrite (rstrip_fixed_not_all is_space (c :: t)) in E
        by (congruence || exact Hb).
      discriminate.
    + assert (lstrip is_space (c :: t) <> []) as Hne.
      { intros E. apply lstrip_nil_iff in E.
        rewrite (rstrip_fixed_not_all is_space (c :: t)) in E
          by (congruence || exact Hb).
        discriminate. }
      apply lstrip_fixed_app; [exact Hne|apply lstrip_idem].
Qed.

(** A trimmed text that does not end with the fence is left alone. *)
Lemma re_sub_trailing_fence_none s :
  rstrip is_space s = s -> (forall x, s <> x ++ fence) ->
  re_sub_trailing_fence s = s.
Proof.
  induction s as [|c t IH]; intros Hr Hn; [reflexivity|].
  rewrite re_sub_trailing_fence_eq.
  assert (trailing_fence_here (c :: t) = None) as ->.
  { unfold trailing_fence_here.
    pose proof (rstrip_fixed_not_all is_space (c :: t)) as Hall.
    assert (exists pre, c :: t = pre ++ lstrip is_space (c :: t)) as [pre Hpre].
    { clear. generalize (c :: t). intros s. induction s as [|d s [pre IH]].
      - exists []. reflexivity.
      - simpl. destruct (is_space d).
        + exists (d :: pre). simpl. f_equal. exact IH.
        + exists []. reflexivity. }
    rewrite bool_decide_eq_false_2.
    2:{ intros E. rewrite E in Hpre. apply (Hn pre). exact Hpre. }
    rewrite bool_decide_eq_false_2; [reflexivity|].
    intros E. rewrite E in Hpre.
    assert (rstrip is_space (c :: t) = rstrip is_space (pre ++ fence)) as R.
    { rewrite Hpre, !app_assoc. apply rstrip_app_all. reflexivity. }
    rewrite Hr in R.
    rewrite rstrip_fence_end in R. apply (Hn pre). exact R. }
  f_equal. apply IH.
  - apply (rstrip_fixed_tail _ _ _ Hr).
  - intros x E. apply (Hn (c :: x)). rewrite E. reflexivity.
Qed.

(** ** The fence at the start *)

Lemma leading_fence_tagged rest :
  re_sub_leading_fence (fence ++ lit "json" ++ rest) = lstrip is_space rest.
Proof. reflexivity. Qed.

Lemma leading_fence_untagged rest :
  startswith (lit "json") rest = false ->
  re_sub_leading_fence (fence ++ rest) = lstrip is_space rest.
Proof.
  intros H. unfold re_sub_leading_fence. rewrite startswith_app.
  rewrite drop_app_length, H. reflexivity.
Qed.

Lemma leading_fence_absent s :
  startswith fence s = false -> re_sub_leading_fence s = s.
Proof. intros H. unfold re_sub_leading_fence. rewrite H. reflexivity. Qed.

(** What is left after the opening fence, its white space included, is
    cut down to the body. *)
Lemma trailing_fence_after_lstrip ws1 body ws2 :
  forallb is_space ws1 = true -> forallb is_space ws2 = true ->
  trimmed is_space body ->
  re_sub_trailing_fence (lstrip is_space (ws1 ++ body ++ ws2 ++ fence)) = body.
Proof.
  intros H1 H2 [Hl Hr]. rewrite lstrip_app, H1. destruct body as [|c t].
  - simpl. rewrite lstrip_app, H2. reflexivity.
  - rewrite lstrip_fixed_app by (congruence || exact Hl).
    apply re_sub_trailing_fence_body; assumption.
Qed.

Lemma fenced_trimmed tag ws1 body ws2 :
  trimmed is_space (fence ++ tag ++ ws1 ++ body ++ ws2 ++ fence).
Proof.
  split; [reflexivity|]. rewrite !app_assoc. apply rstrip_fence_end.
Qed.

(** ** The claim *)

(** C3 (amended).  The validator trims the answer, removes a fence at
    the very start together with the tag [json] if that is what follows
    it (no other tag is removed) and the white space after it, removes a
    fence at the very end together with the white space before it, and
    hands the rest to [json.loads].  So a trimmed body between an
    opening fence, tagged [json] or bare, and a closing fence comes out
    alone, and a body without fences comes out as it is.  For the answer
    of the example the result is the record with the five fields. *)
Theorem clean_response_fences (pad1 pad2 ws1 ws2 body : str) :
  forallb is_space pad1 = true -> forallb is_space pad2 = true ->
  forallb is_space ws1 = true -> forallb is_space ws2 = true ->
  trimmed is_space body ->
  clean_response
    (pad1 ++ (fence ++ lit "json" ++ ws1 ++ body ++ ws2 ++ fence) ++ pad2) = body
  /\ (startswith (lit "json") (ws1 ++ body ++ ws2 ++ fence) = false ->
      clean_response
        (pad1 ++ (fence ++ ws1 ++ body ++ ws2 ++ fence) ++ pad2) = body)
  /\ (startswith fence body = false -> (forall x, body <> x ++ fence) ->
      clean_response (pad1 ++ body ++ pad2) = body)
  /\ (forall rt topic,
        generate_content rt (_build_prompt topic) = Ok Sample.example_response ->
        json_loads rt Sample.example_json = Some (PyDict Sample.example_article) ->
        generate_article rt topic = Ok Sample.example_article
        /\ dom Sample.example_article = required).
Proof.
  intros Hp1 Hp2 H1 H2 Hb. split; [|split; [|split]].
  - unfold clean_response.
    rewrite strip_padding by (assumption || apply (fenced_trimmed (lit "json"))).
    rewrite leading_fence_tagged. apply trailing_fence_after_lstrip; assumption.
  - intros Hj. unfold clean_response.
    rewrite strip_padding by (assumption || apply (fenced_trimmed [])).
    rewrite leading_fence_untagged by exact Hj.
    apply trailing_fence_after_lstrip; assumption.
  - intros Hf Hn. unfold clean_response.
    rewrite strip_padding by assumption.
    rewrite leading_fence_absent by exact Hf.
    apply re_sub_trailing_fence_none; [apply Hb|exact Hn].
  - intros rt topic Hg Hj. split.
    + unfold generate_article. rewrite Hg.
      replace (clean_response Sample.example_response) with Sample.example_json
        by (vm_compute; reflexivity).
      rewrite Hj. vm_compute. reflexivity.
    + vm_compute. reflexivity.
Qed.

(** C3, as it is stated, fails on the code: after the fence only the tag
    [json] is removed.  An answer fenced with another tag keeps the tag,
    and what reaches [json.loads] is not the JSON text. *)
Lemma clean_response_keeps_other_tag :
  let response :=
    lit "```javascript" ++ nl ++ Sample.example_json ++ nl ++ lit "```" in
  clean_response response = lit "javascript" ++ nl ++ Sample.example_json
  /\ clean_response response <> Sample.example_json
  /\ generate_article (Sample.runtime_with (Ok response)) (lit "cats")
     = Raise JSONDecodeError.
Proof.
  intros response.
  assert (clean_response response = lit "javascript" ++ nl ++ Sample.example_json)
    as E by (vm_compute; reflexivity).
  split; [exact E|]. split.
  - rewrite E. vm_compute. discriminate.
  - vm_compute. reflexivity.
Qed.

End FenceProofs.

(* ================================================================== *)
(** * The conversation *)
(* ================================================================== *)

Module HandlerProofs.
Import Py World Bot Template TemplateProofs SaveProofs.

Section Handlers.

Variable rt : runtime.

(** ** Dispatch *)

Lemma process_update_topic (text : str) (now : datetime) (fs : filesystem) :
  process_update rt WAITING_FOR_TOPIC (Message text None) now fs
  = let '(r, fs') := topic_received rt now text fs in
    (match finish r with Return next => next | Uncaught _ => WAITING_FOR_TOPIC end,
     replies r, fs').
Proof. reflexivity. Qed.

Lemma process_update_cancel_waiting (text : str) (now : datetime)
  (fs : filesystem) :
  process_update rt WAITING_FOR_TOPIC (Message text (Some (lit "cancel"))) now fs
  = (END, [cancel_text], fs).
Proof. reflexivity. Qed.

Lemma process_update_cancel_idle (text : str) (now : datetime)
  (fs : filesystem) :
  process_update rt END (Message text (Some (lit "cancel"))) now fs
  = (END, [], fs).
Proof. reflexivity. Qed.

(** ** The [try] block *)

Lemma try_block_generate_fails (now : datetime) (topic : str)
  (fs : filesystem) (e : exn) :
  generate_article rt topic = Raise e ->
  try_generate_and_save rt now topic fs = (Raise e, fs).
Proof.
  intros H. unfold try_generate_and_save, mbind, M_bind, bind. rewrite H.
  reflexivity.
Qed.

Lemma try_block_generate_ok (now : datetime) (topic : str)
  (fs : filesystem) (data : gmap str pyval) :
  generate_article rt topic = Ok data ->
  try_generate_and_save rt now topic fs
  = match save_article rt now data fs with
    | (Ok p, fs') => (Ok (data, p), fs')
    | (Raise e, fs') => (Raise e, fs')
    end.
Proof.
  intros H. unfold try_generate_and_save, mbind, M_bind, bind. rewrite H.
  cbn [lift ret]. destruct (save_article rt now data fs) as [[p|e] fs'];
    reflexivity.
Qed.

Lemma topic_received_failure (now : datetime) (text : str)
  (fs fs' : filesystem) (e : exn) :
  strip is_space text <> [] ->
  try_generate_and_save rt now (strip is_space text) fs = (Raise e, fs') ->
  topic_received rt now text fs
  = ({| replies := [generating_text;
                    if is_JSONDecodeError e then parse_error_text
                    else failure_text];
        finish := Return END |}, fs').
Proof.
  intros Hne H. unfold topic_received. cbv zeta.
  destruct (strip is_space text) as [|c t] eqn:E; [congruence|].
  rewrite H. destruct (is_JSONDecodeError e); reflexivity.
Qed.

(** ** What a successful save tells about the article *)

Lemma substitute_inv (pairs : list (str * pyval)) (template doc : str) :
  substitute pairs template = Ok doc ->
  Forall (fun pv => exists s, snd pv = PyStr s) pairs.
Proof.
  revert template. induction pairs as [|[ph v] rest IH]; intros template H.
  - constructor.
  - cbn [substitute] in H. destruct v; try discriminate.
    constructor; [eexists; reflexivity|]. cbn [replace_value] in H. eauto.
Qed.

Lemma item_inv (data : gmap str pyval) (key : str) (v : pyval) :
  item data key = Ok v -> data !! key = Some v.
Proof. unfold item. destruct (data !! key); congruence. Qed.

Lemma render_html_inv (now : datetime) (data : gmap str pyval)
  (fs fs' : filesystem) (doc : str) :
  render_html rt now data fs = (Ok doc, fs') ->
  exists title slug meta keywords content,
    has_fields data title slug meta keywords content.
Proof.
  unfold render_html, mbind, M_bind, bind, read_text. intros H.
  destruct (fs !! TEMPLATE_PATH rt) as [[|tpl]|]; try discriminate.
  destruct (item data (lit "title")) as [v1|] eqn:E1; try discriminate.
  destruct (item data (lit "slug")) as [v2|] eqn:E2; try discriminate.
  destruct (item data (lit "meta_description")) as [v3|] eqn:E3;
    try discriminate.
  destruct (item data (lit "keywords")) as [v4|] eqn:E4; try discriminate.
  destruct (item data (lit "html_content")) as [v5|] eqn:E5; try discriminate.
  cbn [lift ret] in H.
  match type of H with
  | lift ?r _ = _ => destruct r as [d|] eqn:S; try discriminate
  end.
  apply substitute_inv in S.
  repeat match goal with
         | S : Forall _ (_ :: _) |- _ => inversion S; subst; clear S
         end.
  repeat match goal with
         | X : exists s, snd _ = PyStr s |- _ => destruct X as [? X]; simpl in X
         end.
  subst. apply item_inv in E1, E2, E3, E4, E5.
  do 5 eexists. repeat split; eassumption.
Qed.

Lemma save_article_inv (now : datetime) (data : gmap str pyval)
  (fs fs' : filesystem) (p : path) :
  save_article rt now data fs = (Ok p, fs') ->
  exists title slug meta keywords content,
    has_fields data title slug meta keywords content
    /\ p = BLOG_DIR rt ++ [_sanitize_slug rt slug ++ lit ".html"].
Proof.
  unfold save_article, mbind, M_bind, bind. intros H.
  destruct (mkdir_p (BLOG_DIR rt) fs) as [[[]|] fs1]; try discriminate.
  destruct (item data (lit "slug")) as [v|] eqn:Ev; try discriminate.
  cbn [lift ret] in H.
  destruct (_sanitize_slug_value rt v) as [clean|] eqn:Ec; try discriminate.
  cbn [lift ret] in H.
  destruct (render_html rt now data fs1) as [[doc|] fs2] eqn:Er;
    try discriminate.
  destruct (write_text _ doc fs2) as [[[]|] fs3]; try discriminate.
  cbn [ret] in H. injection H as <- <-.
  destruct (render_html_inv _ _ _ _ _ Er)
    as (title & slug & meta & keywords & content & Hf).
  exists title, slug, meta, keywords, content. split; [exact Hf|].
  destruct Hf as (_ & Hs & _). apply item_inv in Ev.
  rewrite Hs in Ev. injection Ev as <-. cbn in Ec. injection Ec as <-.
  reflexivity.
Qed.

Lemma success_reply_fields (data : gmap str pyval)
  (title slug meta keywords content : str) :
  has_fields data title slug meta keywords content ->
  success_reply rt data
  = Ok (success_text title meta keywords (_sanitize_slug rt slug)).
Proof.
  intros (Ht & Hs & Hm & Hk & _). unfold success_reply, fstring_field.
  rewrite (item_field _ _ _ Hs), (item_field _ _ _ Ht),
    (item_field _ _ _ Hm), (item_field _ _ _ Hk).
  reflexivity.
Qed.

Lemma topic_received_success (now : datetime) (text : str)
  (fs fs' : filesystem) (data : gmap str pyval) (p : path) :
  strip is_space text <> [] ->
  try_generate_and_save rt now (strip is_space text) fs = (Ok (data, p), fs') ->
  exists title slug meta keywords content,
    has_fields data title slug meta keywords content
    /\ p = BLOG_DIR rt ++ [_sanitize_slug rt slug ++ lit ".html"]
    /\ topic_received rt now text fs
       = ({| replies := [generating_text;
                         success_text title meta keywords
                           (_sanitize_slug rt slug)];
             finish := Return END |}, fs').
Proof.
  intros Hne H. pose proof H as H'.
  unfold try_generate_and_save, mbind, M_bind, bind in H'.
  destruct (generate_article rt (strip is_space text)) as [d|]; try discriminate.
  cbn [lift ret] in H'.
  destruct (save_article rt now d fs) as [[q|] fs1] eqn:Es; try discriminate.
  cbn [ret] in H'. injection H' as -> -> ->.
  destruct (save_article_inv _ _ _ _ _ Es)
    as (title & slug & meta & keywords & content & Hf & Hp).
  exists title, slug, meta, keywords, content.
  split; [exact Hf|]. split; [exact Hp|].
  unfold topic_received. cbv zeta.
  destruct (strip is_space text) as [|c t] eqn:E; [congruence|].
  rewrite H, (success_reply_fields _ _ _ _ _ _ Hf). reflexivity.
Qed.

(** The parts of the success message. *)
Lemma contains_here (x post : str) : contains x (x ++ post).
Proof. exists [], post. reflexivity. Qed.

Lemma contains_refl (x : str) : contains x x.
Proof. exists [], []. rewrite app_nil_r. reflexivity. Qed.

Lemma contains_skip (x pre s : str) : contains x s -> contains x (pre ++ s).
Proof.
  intros (a & b & ->). exists (pre ++ a), b. rewrite <- app_assoc. reflexivity.
Qed.

Lemma success_text_contains (title meta keywords slug : str) :
  let reply := success_text title meta keywords slug in
  contains title reply /\ contains meta reply /\ contains keywords reply
  /\ contains (saved_to slug) reply /\ contains (blog_url slug) reply.
Proof.
  unfold success_text. repeat split.
  - do 4 apply contains_skip. apply contains_here.
  - do 7 apply contains_skip. apply contains_here.
  - do 10 apply contains_skip. apply contains_here.
  - do 13 apply contains_skip. apply contains_here.
  - do 17 apply contains_skip. apply contains_refl.
Qed.

Lemma topic_update_failure (now : datetime) (text : str) (fs : filesystem)
  (e : exn) :
  strip is_space text <> [] ->
  generate_article rt (strip is_space text) = Raise e ->
  process_update rt WAITING_FOR_TOPIC (Message text None) now fs
  = (END, [generating_text;
           if is_JSONDecodeError e then parse_error_text else failure_text],
     fs).
Proof.
  intros Hne H. rewrite process_update_topic.
  rewrite (topic_received_failure now text fs fs e Hne); [reflexivity|].
  apply try_block_generate_fails, H.
Qed.

(** ** [generate_article] on a bad answer *)

Lemma generate_article_not_json (topic response : str) :
  generate_content rt (_build_prompt topic) = Ok response ->
  json_loads rt (clean_response response) = None ->
  generate_article rt topic = Raise JSONDecodeError.
Proof. intros Hg Hj. unfold generate_article. rewrite Hg, Hj. reflexivity. Qed.

Lemma missing_keys_spec (data : gmap str pyval) (k : str) :
  k ∈ required ∖ dom data <-> k ∈ required /\ data !! k = None.
Proof.
  rewrite elem_of_difference, elem_of_dom, <- eq_None_not_Some. reflexivity.
Qed.

Lemma generate_article_missing (topic response : str)
  (data : gmap str pyval) :
  generate_content rt (_build_prompt topic) = Ok response ->
  json_loads rt (clean_response response) = Some (PyDict data) ->
  (exists k, k ∈ required /\ data !! k = None) ->
  generate_article rt topic = Raise (ValueError (required ∖ dom data)).
Proof.
  intros Hg Hj (k & Hk & Hn). unfold generate_article. rewrite Hg, Hj.
  rewrite bool_decide_eq_false_2; [reflexivity|].
  intros E. assert (k ∈ required ∖ dom data) as Hin
    by (apply missing_keys_spec; auto).
  rewrite E in Hin. apply not_elem_of_empty in Hin. exact Hin.
Qed.

Lemma topic_update_empty (now : datetime) (text : str) (fs : filesystem) :
  strip is_space text = [] ->
  process_update rt WAITING_FOR_TOPIC (Message text None) now fs
  = (WAITING_FOR_TOPIC, [empty_topic_text], fs).
Proof.
  intros E. rewrite process_update_topic. unfold topic_received. cbv zeta.
  rewrite E. reflexivity.
Qed.

Lemma topic_update_success (now : datetime) (text : str) (fs fs' : filesystem)
  (data : gmap str pyval) (p : path) :
  strip is_space text <> [] ->
  try_generate_and_save rt now (strip is_space text) fs = (Ok (data, p), fs') ->
  exists title slug meta keywords content,
    has_fields data title slug meta keywords content
    /\ p = BLOG_DIR rt ++ [_sanitize_slug rt slug ++ lit ".html"]
    /\ process_update rt WAITING_FOR_TOPIC (Message text None) now fs
       = (END, [generating_text;
                success_text title meta keywords (_sanitize_slug rt slug)],
          fs').
Proof.
  intros Hne H.
  destruct (topic_received_success now text fs fs' data p Hne H)
    as (title & slug & meta & keywords & content & Hf & Hp & Hr).
  exists title, slug, meta, keywords, content.
  split; [exact Hf|]. split; [exact Hp|].
  rewrite process_update_topic, Hr. reflexivity.
Qed.

Lemma topic_update_raise (now : datetime) (text : str) (fs fs' : filesystem)
  (e : exn) :
  strip is_space text <> [] ->
  try_generate_and_save rt now (strip is_space text) fs = (Raise e, fs') ->
  process_update rt WAITING_FOR_TOPIC (Message text None) now fs
  = (END, [generating_text;
           if is_JSONDecodeError e then parse_error_text else failure_text],
     fs').
Proof.
  intros Hne H.
  rewrite process_update_topic, (topic_received_failure now text fs fs' e Hne H).
  reflexivity.
Qed.

(** ** The claims *)

(** C2.  When the answer of the service is not JSON, [generate_article]
    raises [JSONDecodeError], the user is told that the answer could not
    be parsed, and the conversation ends.  When the answer is a JSON
    object that lacks some required key, it raises a [ValueError] that
    carries exactly the missing keys; the user gets the same message as
    for any other failure, and the conversation ends.  The two errors
    and the two messages differ. *)
Theorem parse_and_validation_failures (now : datetime) (text response : str)
  (fs : filesystem) :
  strip is_space text <> [] ->
  generate_content rt (_build_prompt (strip is_space text)) = Ok response ->
  let topic := strip is_space text in
  let u := Message text None in
  (json_loads rt (clean_response response) = None ->
     generate_article rt topic = Raise JSONDecodeError
     /\ process_update rt WAITING_FOR_TOPIC u now fs
        = (END, [generating_text; parse_error_text], fs))
  /\ (forall data : gmap str pyval,
        json_loads rt (clean_response response) = Some (PyDict data) ->
        (exists k, k ∈ required /\ data !! k = None) ->
        let missing := required ∖ dom data in
        generate_article rt topic = Raise (ValueError missing)
        /\ (forall k, k ∈ missing <-> k ∈ required /\ data !! k = None)
        /\ ValueError missing <> JSONDecodeError
        /\ process_update rt WAITING_FOR_TOPIC u now fs
           = (END, [generating_text; failure_text], fs))
  /\ (forall e, generate_article rt topic = Raise e ->
        is_JSONDecodeError e = false ->
        process_update rt WAITING_FOR_TOPIC u now fs
        = (END, [generating_text; failure_text], fs))
  /\ parse_error_text <> failure_text.
Proof.
  intros Hne Hg topic u. subst topic u. split; [|split; [|split]].
  - intros Hj.
    pose proof (generate_article_not_json _ _ Hg Hj) as G.
    split; [exact G|].
    rewrite (topic_update_failure now text fs JSONDecodeError Hne G).
    cbn [is_JSONDecodeError]. reflexivity.
  - intros data Hj Hk missing.
    pose proof (generate_article_missing _ _ _ Hg Hj Hk) as G.
    split; [exact G|]. split; [apply missing_keys_spec|].
    split; [discriminate|].
    rewrite (topic_update_failure now text fs _ Hne G).
    cbn [is_JSONDecodeError]. reflexivity.
  - intros e He Hj.
    rewrite (topic_update_failure now text fs e Hne He), Hj. reflexivity.
  - vm_compute. discriminate.
Qed.

(** C7.  While a topic is awaited, a text message that is empty once
    trimmed gets the prompt again and the topic is still awaited.  For
    any other text the pipeline runs: if it succeeds the conversation
    ends and the last reply holds the title, the meta description, the
    keywords, the path [blog/<slug>.html] and the address made of the
    base address, the sanitized slug and [.html]; if it fails, whatever
    the exception, the conversation ends too. *)
Theorem topic_message_handling (now : datetime) (text : str) (fs : filesystem) :
  let u := Message text None in
  let topic := strip is_space text in
  (topic = [] ->
     process_update rt WAITING_FOR_TOPIC u now fs
     = (WAITING_FOR_TOPIC, [empty_topic_text], fs))
  /\ (topic <> [] ->
      forall data p fs',
        try_generate_and_save rt now topic fs = (Ok (data, p), fs') ->
        exists title slug meta keywords content,
          has_fields data title slug meta keywords content
          /\ p = BLOG_DIR rt ++ [_sanitize_slug rt slug ++ lit ".html"]
          /\ let clean := _sanitize_slug rt slug in
             let reply := success_text title meta keywords clean in
             process_update rt WAITING_FOR_TOPIC u now fs
             = (END, [generating_text; reply], fs')
             /\ contains title reply /\ contains meta reply
             /\ contains keywords reply
             /\ contains (saved_to clean) reply
             /\ contains (blog_url clean) reply
             /\ saved_to clean = lit "blog/" ++ clean ++ lit ".html"
             /\ blog_url clean = BLOG_URL ++ clean ++ lit ".html")
  /\ (topic <> [] ->
      forall e fs',
        try_generate_and_save rt now topic fs = (Raise e, fs') ->
        exists reply,
          process_update rt WAITING_FOR_TOPIC u now fs
          = (END, [generating_text; reply], fs')).
Proof.
  cbv zeta. split; [|split].
  - apply topic_update_empty.
  - intros Hne data p fs' H.
    destruct (topic_update_success now text fs fs' data p Hne H)
      as (title & slug & meta & keywords & content & Hf & Hp & Hr).
    exists title, slug, meta, keywords, content.
    split; [exact Hf|]. split; [exact Hp|]. split; [exact Hr|].
    destruct (success_text_contains title meta keywords
                (_sanitize_slug rt slug)) as (C1 & C2 & C3 & C4 & C5).
    repeat (split; [assumption|]). split; reflexivity.
  - intros Hne e fs' H. eexists.
    apply (topic_update_raise now text fs fs' e Hne H).
Qed.

(** C8 (amended).  While a topic is awaited, the cancel command is
    answered with the cancellation message and the conversation ends.
    Outside a conversation the cancel command reaches no handler: it is
    a fallback of the conversation handler, and fallbacks are tried in a
    conversation only.  Nothing is replied and nothing changes. *)
Theorem cancel_only_in_conversation (now : datetime) (text : str)
  (fs : filesystem) :
  let u := Message text (Some (lit "cancel")) in
  process_update rt WAITING_FOR_TOPIC u now fs = (END, [cancel_text], fs)
  /\ process_update rt END u now fs = (END, [], fs).
Proof. split; reflexivity. Qed.

(** C10.  When [generate_article] raises [JSONDecodeError] or the
    [ValueError] for missing keys, [save_article] is not run: the [try]
    block leaves the disk as it was, so no file and no directory is
    made.  After the notice sent before the service is called, the one
    reply is the error message, and the conversation ends. *)
Theorem failed_generation_leaves_disk (now : datetime) (text : str)
  (fs : filesystem) (e : exn) :
  strip is_space text <> [] ->
  generate_article rt (strip is_space text) = Raise e ->
  (e = JSONDecodeError \/ exists missing, e = ValueError missing) ->
  try_generate_and_save rt now (strip is_space text) fs = (Raise e, fs)
  /\ process_update rt WAITING_FOR_TOPIC (Message text None) now fs
     = (END,
        [generating_text;
         match e with JSONDecodeError => parse_error_text | _ => failure_text end],
        fs).
Proof.
  intros Hne H He. split; [apply try_block_generate_fails, H|].
  rewrite (topic_update_failure now text fs e Hne H).
  destruct He as [->|[m ->]]; cbn [is_JSONDecodeError]; reflexivity.
Qed.

(** C9 (amended).  For an article whose fields hold no opening brace,
    rendered through a template of brace-free text and placeholders:
    the file is [BLOG_DIR/<sanitized slug>.html], the reply names
    [blog/<sanitized slug>.html] and the address with the sanitized
    slug, while the document in the file has the slug as the service
    gave it in every slug placeholder.  When the slug is not its own
    sanitized form the two differ. *)
Theorem raw_slug_inside_clean_slug_outside (now : datetime) (text : str)
  (data : gmap str pyval) (title slug meta keywords content : str)
  (segs : list segment) (fs : filesystem) :
  strip is_space text <> [] ->
  generate_article rt (strip is_space text) = Ok data ->
  has_fields data title slug meta keywords content ->
  fs !! TEMPLATE_PATH rt = Some (File (template_text segs)) ->
  plain_text segs = true ->
  forallb brace_free [title; slug; meta; keywords; content] = true ->
  (forall c, fs !! BLOG_DIR rt <> Some (File c)) ->
  fs !! (BLOG_DIR rt ++ [_sanitize_slug rt slug ++ lit ".html"]) <> Some Dir ->
  let clean := _sanitize_slug rt slug in
  let out := BLOG_DIR rt ++ [clean ++ lit ".html"] in
  let doc := fill (values_of now title slug meta keywords content) segs in
  exists reply fs',
    process_update rt WAITING_FOR_TOPIC (Message text None) now fs
    = (END, [generating_text; reply], fs')
    /\ fs' !! out = Some (File doc)
    /\ contains (saved_to clean) reply
    /\ contains (blog_url clean) reply.
Proof.
  intros Hne Hg Hf Ht Hp Hv Hb Ho. cbv zeta.
  pose proof (save_article_ok rt now data _ _ _ _ _ _ fs Hf Ht Hb Ho) as S.
  rewrite rendered_fill in S by assumption.
  pose proof (try_block_generate_ok now _ fs data Hg) as T. rewrite S in T.
  destruct (topic_received_success now text fs _ data _ Hne T)
    as (t' & s' & m' & k' & c' & Hf' & _ & Hr).
  destruct Hf as (Ht1 & Hs1 & Hm1 & Hk1 & _).
  destruct Hf' as (Ht2 & Hs2 & Hm2 & Hk2 & _).
  rewrite Ht1 in Ht2. rewrite Hs1 in Hs2. rewrite Hm1 in Hm2. rewrite Hk1 in Hk2.
  injection Ht2 as <-. injection Hs2 as <-. injection Hm2 as <-.
  injection Hk2 as <-.
  pose proof (success_text_contains title meta keywords
                (_sanitize_slug rt slug)) as (_ & _ & _ & C1 & C2).
  do 2 eexists. split; [|split; [|split]].
  - rewrite process_update_topic, Hr. reflexivity.
  - apply lookup_insert_eq.
  - exact C1.
  - exact C2.
Qed.

End Handlers.

(** C8, as it is stated, fails on the code: with no conversation going
    on, the cancel command gets no reply. *)
Lemma cancel_when_idle_is_ignored :
  let rt := Sample.runtime_with (Raise ServiceError) in
  let u := Message (lit "/cancel") (Some (lit "cancel")) in
  process_update rt END u Sample.today ∅ = (END, [], ∅)
  /\ snd (fst (process_update rt END u Sample.today ∅)) <> [cancel_text].
Proof. split; [reflexivity|]. vm_compute. discriminate. Qed.

(** ** The sample disk *)

Lemma disk_with_template (rt : runtime) (segs : list segment) :
  Sample.disk_with rt segs !! TEMPLATE_PATH rt = Some (File (template_text segs)).
Proof. apply lookup_singleton_eq. Qed.

Lemma disk_with_no_blog (rt : runtime) (segs : list segment) (c : str) :
  Sample.disk_with rt segs !! BLOG_DIR rt <> Some (File c).
Proof.
  unfold Sample.disk_with.
  rewrite lookup_singleton_ne by apply template_not_blog_dir. discriminate.
Qed.

Lemma disk_with_no_article (rt : runtime) (segs : list segment) (name : str) :
  Sample.disk_with rt segs !! (BLOG_DIR rt ++ [name]) <> Some Dir.
Proof.
  unfold Sample.disk_with.
  rewrite lookup_singleton_ne by apply template_not_blog_file. discriminate.
Qed.

(** C9, as it is stated, fails on the code: a slug that holds the text of
    a placeholder replaced later.  The file is named after the sanitized
    slug, [year.html], but where the template has the slug placeholder
    the document has the year, not the slug of the article. *)
Lemma raw_slug_rewritten_in_document :
  let rt := Sample.runtime_with (Raise ServiceError) in
  let raw := lit "{{ year }}" in
  let data := article (lit "T") raw (lit "M") (lit "k") (lit "<p>x</p>") in
  let fs := Sample.disk_with rt Sample.page in
  let year_as_slug :=
    values_of Sample.today (lit "T") (lit "2026") (lit "M") (lit "k")
      (lit "<p>x</p>") in
  let out := BLOG_DIR rt ++ [lit "year" ++ lit ".html"] in
  exists fs',
    save_article rt Sample.today data fs = (Ok out, fs')
    /\ fs' !! out = Some (File (fill year_as_slug Sample.page))
    /\ ~ contains raw (fill year_as_slug Sample.page).
Proof.
  intros rt raw data fs year_as_slug out.
  assert (_sanitize_slug rt raw = lit "year") as Es by (vm_compute; reflexivity).
  assert (rendered Sample.today (template_text Sample.page) (lit "T") raw
            (lit "M") (lit "k") (lit "<p>x</p>")
          = fill year_as_slug Sample.page) as Ed by (vm_compute; reflexivity).
  pose proof (save_article_ok rt Sample.today data _ _ _ _ _
                (template_text Sample.page) fs (article_has_fields _ _ _ _ _)
                (disk_with_template rt Sample.page)
                (disk_with_no_blog rt Sample.page)
                (disk_with_no_article rt Sample.page _)) as S.
  rewrite Es, Ed in S. eexists. split; [exact S|]. split.
  - apply lookup_insert_eq.
  - intros H. apply occurs_spec in H. vm_compute in H. discriminate.
Qed.

End HandlerProofs.

(* ================================================================== *)
(** * The theorems at work on the sample runtime *)
(* ================================================================== *)

Module Witnesses.
Import Py World Bot Template Sample.

Lemma sanitize_slug_idempotent_shape_witness :
  let rt := runtime_with (Raise ServiceError) in
  let s := lit "Hello, World!!" in
  lower_on_ascii rt
  /\ _sanitize_slug rt (_sanitize_slug rt s) = _sanitize_slug rt s
  /\ (Regex.fullmatch Regex.slug_re (_sanitize_slug rt s)
      \/ _sanitize_slug rt s = lit "article").
Proof.
  intros rt s.
  assert (lower_on_ascii rt) as Hl by (intros x _; reflexivity).
  split; [exact Hl|].
  exact (SlugProofs.sanitize_slug_idempotent_shape rt s Hl).
Defined.

Lemma sanitize_slug_algorithm_witness :
  let rt := runtime_with (Raise ServiceError) in
  lower_on_ascii rt
  /\ (forall s, _sanitize_slug rt s = SlugSpec.sanitize rt s)
  /\ _sanitize_slug rt (lit "Hello, World!!") = lit "hello-world"
  /\ _sanitize_slug rt (lit "---") = lit "article".
Proof.
  intros rt.
  assert (lower_on_ascii rt) as Hl by (intros x _; reflexivity).
  split; [exact Hl|].
  exact (SlugProofs.sanitize_slug_algorithm rt Hl).
Defined.

Lemma parse_and_validation_failures_witness :
  let bad := runtime_with (Ok (lit "not json")) in
  let short := runtime_with (Ok title_only_json) in
  let u := Message (lit "cats") None in
  (strip is_space (lit "cats") <> []
   /\ json_loads bad (clean_response (lit "not json")) = None
   /\ generate_article bad (strip is_space (lit "cats")) = Raise JSONDecodeError
   /\ process_update bad WAITING_FOR_TOPIC u today ∅
      = (END, [generating_text; parse_error_text], ∅))
  /\ (json_loads short (clean_response title_only_json)
      = Some (PyDict {[lit "title" := PyStr (lit "T")]})
     /\ process_update short WAITING_FOR_TOPIC u today ∅
        = (END, [generating_text; failure_text], ∅)).
Proof.
  intros bad short u.
  assert (strip is_space (lit "cats") <> []) as Hne
    by (vm_compute; discriminate).
  assert (json_loads bad (clean_response (lit "not json")) = None) as Hj
    by (vm_compute; reflexivity).
  assert (json_loads short (clean_response title_only_json)
          = Some (PyDict {[lit "title" := PyStr (lit "T")]})) as Hd
    by (vm_compute; reflexivity).
  assert (exists k : str,
            k ∈ required
            /\ ({[lit "title" := PyStr (lit "T")]} : gmap str pyval) !! k = None)
    as Hk.
  { exists (lit "slug"). split; [vm_compute; reflexivity|].
    vm_compute. reflexivity. }
  split.
  - split; [exact Hne|]. split; [exact Hj|].
    exact (proj1 (HandlerProofs.parse_and_validation_failures bad today
                    (lit "cats") (lit "not json") ∅ Hne eq_refl) Hj).
  - split; [exact Hd|].
    exact (proj2 (proj2 (proj2
             (proj1 (proj2
                (HandlerProofs.parse_and_validation_failures short today
                   (lit "cats") title_only_json ∅ Hne eq_refl))
                _ Hd Hk)))).
Defined.

Lemma clean_response_fences_witness :
  let body := example_json in
  trimmed is_space body
  /\ clean_response ([] ++ (fence ++ lit "json" ++ nl ++ body ++ nl ++ fence) ++ [])
     = body
  /\ generate_article (runtime_with (Ok example_response)) (lit "cats")
     = Ok example_article.
Proof.
  intros body.
  assert (trimmed is_space body) as Hb by (split; vm_compute; reflexivity).
  pose proof (FenceProofs.clean_response_fences [] [] nl nl body
                eq_refl eq_refl eq_refl eq_refl Hb) as (H1 & _ & _ & H4).
  split; [exact Hb|]. split; [exact H1|].
  refine (proj1 (H4 (runtime_with (Ok example_response)) (lit "cats") eq_refl _)).
  vm_compute. reflexivity.
Defined.

Lemma render_html_fills_witness :
  let rt := runtime_with (Raise ServiceError) in
  let fs := disk_with rt page in
  let data := article (lit "Hi") (lit "hi") (lit "M") (lit "k") (lit "<p>x</p>") in
  let values :=
    values_of today (lit "Hi") (lit "hi") (lit "M") (lit "k") (lit "<p>x</p>") in
  plain_text page = true
  /\ render_html rt today data fs = (Ok (fill values page), fs)
  /\ no_placeholder_left (fill values page).
Proof.
  intros rt fs data values.
  assert (plain_text page = true) as Hp by (vm_compute; reflexivity).
  assert (has_fields data (lit "Hi") (lit "hi") (lit "M") (lit "k")
            (lit "<p>x</p>")) as Hf by (repeat split; reflexivity).
  assert (fs !! TEMPLATE_PATH rt = Some (File (template_text page))) as Ht
    by (vm_compute; reflexivity).
  pose proof (SaveProofs.render_html_fills rt today data _ _ _ _ _ page fs
                Hf Ht Hp eq_refl) as (H1 & H2 & _).
  split; [exact Hp|]. split; [exact H1|exact H2].
Defined.

Lemma save_article_persists_witness :
  let rt := runtime_with (Raise ServiceError) in
  let fs := disk_with rt page in
  let out := BLOG_DIR rt ++ [_sanitize_slug rt (lit "s") ++ lit ".html"] in
  exists fs',
    save_article rt today example_article fs = (Ok out, fs')
    /\ fs' !! BLOG_DIR rt = Some Dir.
Proof.
  intros rt fs out.
  assert (has_fields example_article (lit "T") (lit "s") (lit "M") (lit "k")
            (lit "<p>x</p>")) as Hf by (repeat split; reflexivity).
  assert (fs !! TEMPLATE_PATH rt = Some (File (template_text page))) as Ht
    by (vm_compute; reflexivity).
  assert (forall c, fs !! BLOG_DIR rt <> Some (File c)) as Hb
    by (intros c; vm_compute; discriminate).
  assert (fs !! out <> Some Dir) as Ho by (vm_compute; discriminate).
  destruct (SaveProofs.save_article_persists rt today example_article
              _ _ _ _ _ _ fs Hf Ht Hb Ho) as (fs' & H1 & H2 & _).
  exists fs'. split; [exact H1|exact H2].
Defined.

Lemma failed_generation_leaves_disk_witness :
  let rt := runtime_with (Ok (lit "not json")) in
  generate_article rt (strip is_space (lit "cats")) = Raise JSONDecodeError
  /\ process_update rt WAITING_FOR_TOPIC (Message (lit "cats") None) today ∅
     = (END, [generating_text; parse_error_text], ∅).
Proof.
  intros rt.
  assert (strip is_space (lit "cats") <> []) as Hne
    by (vm_compute; discriminate).
  assert (generate_article rt (strip is_space (lit "cats"))
          = Raise JSONDecodeError) as Hg by (vm_compute; reflexivity).
  split; [exact Hg|].
  exact (proj2 (HandlerProofs.failed_generation_leaves_disk rt today
                  (lit "cats") ∅ JSONDecodeError Hne Hg (or_introl eq_refl))).
Defined.

Lemma raw_slug_inside_clean_slug_outside_witness :
  let raw := lit "Hello World" in
  let rt :=
    runtime_with
      (Ok (article_json (lit "T") raw (lit "M") (lit "k") (lit "<p>x</p>"))) in
  let fs := disk_with rt page in
  let doc :=
    fill (values_of today (lit "T") raw (lit "M") (lit "k") (lit "<p>x</p>"))
      page in
  _sanitize_slug rt raw <> raw
  /\ exists reply fs',
      process_update rt WAITING_FOR_TOPIC (Message (lit "cats") None) today fs
      = (END, [generating_text; reply], fs')
      /\ fs' !! (BLOG_DIR rt ++ [_sanitize_slug rt raw ++ lit ".html"])
         = Some (File doc)
      /\ contains (saved_to (_sanitize_slug rt raw)) reply
      /\ contains (blog_url (_sanitize_slug rt raw)) reply.
Proof.
  intros raw rt fs doc.
  set (data := article (lit "T") raw (lit "M") (lit "k") (lit "<p>x</p>")).
  assert (_sanitize_slug rt raw <> raw) as Hs by (vm_compute; discriminate).
  assert (strip is_space (lit "cats") <> []) as Hne
    by (vm_compute; discriminate).
  assert (generate_article rt (strip is_space (lit "cats")) = Ok data) as Hg
    by (vm_compute; reflexivity).
  assert (has_fields data (lit "T") raw (lit "M") (lit "k") (lit "<p>x</p>"))
    as Hf by (repeat split; reflexivity).
  assert (fs !! TEMPLATE_PATH rt = Some (File (template_text page))) as Ht
    by (vm_compute; reflexivity).
  assert (plain_text page = true) as Hp by (vm_compute; reflexivity).
  assert (forall c, fs !! BLOG_DIR rt <> Some (File c)) as Hb
    by (intros c; vm_compute; discriminate).
  assert (fs !! (BLOG_DIR rt ++ [_sanitize_slug rt raw ++ lit ".html"])
          <> Some Dir) as Ho by (vm_compute; discriminate).
  split; [exact Hs|].
  exact (HandlerProofs.raw_slug_inside_clean_slug_outside rt today (lit "cats")
           data _ _ _ _ _ page fs Hne Hg Hf Ht Hp eq_refl Hb Ho).
Defined.

Lemma topic_message_handling_witness :
  let rt := runtime_with (Ok example_response) in
  let fs := disk_with rt page in
  process_update rt WAITING_FOR_TOPIC (Message (lit "  ") None) today fs
  = (WAITING_FOR_TOPIC, [empty_topic_text], fs)
  /\ exists reply fs',
      process_update rt WAITING_FOR_TOPIC (Message (lit "cats") None) today fs
      = (END, [generating_text; reply], fs').
Proof.
  intros rt fs.
  pose proof (HandlerProofs.topic_message_handling rt today (lit "  ") fs)
    as (H1 & _).
  pose proof (HandlerProofs.topic_message_handling rt today (lit "cats") fs)
    as (_ & H2 & _).
  cbv zeta in H1, H2. split; [apply H1; vm_compute; reflexivity|].
  assert (strip is_space (lit "cats") <> []) as Hne
    by (vm_compute; discriminate).
  assert (generate_article rt (strip is_space (lit "cats")) = Ok example_article)
    as Hg by (vm_compute; reflexivity).
  assert (has_fields example_article (lit "T") (lit "s") (lit "M") (lit "k")
            (lit "<p>x</p>")) as Hf by (repeat split; reflexivity).
  assert (fs !! TEMPLATE_PATH rt = Some (File (template_text page))) as Ht
    by (vm_compute; reflexivity).
  assert (forall c, fs !! BLOG_DIR rt <> Some (File c)) as Hb
    by (intros c; vm_compute; discriminate).
  assert (fs !! (BLOG_DIR rt ++ [_sanitize_slug rt (lit "s") ++ lit ".html"])
          <> Some Dir) as Ho by (vm_compute; discriminate).
  pose proof (HandlerProofs.try_block_generate_ok rt today _ fs _ Hg) as T.
  rewrite (SaveProofs.save_article_ok rt today example_article _ _ _ _ _ _ fs
             Hf Ht Hb Ho) in T.
  destruct (H2 Hne _ _ _ T)
    as (title & slug & meta & keywords & content & _ & _ & Hr & _).
  eexists _, _. exact Hr.
Defined.

End Witnesses.
